(** * GS1 Data Matrix decoder: the parser, the converters and the decode cascade

    A shallow embedding of [gs1-parser-test.js] (the GS1 Application
    Identifier parser, the GTIN to NDC converter and the expiration date
    formatter) and of [decode-dm.js] (the cascade of preprocessing and decode
    attempts), with the properties the specification states about them. *)

From Stdlib Require Import String Ascii List ZArith Lia Bool Arith DecimalString.
Import ListNotations.

Local Open Scope string_scope.

(** ** JavaScript strings

    A JavaScript string is a sequence of code units.  The payload of a Data
    Matrix symbol is ISO-8859-1 text, so a code unit is an [ascii] here and a
    JavaScript string a Stdlib [string]; the parser only takes lengths and
    substrings and compares for equality. *)

Module JS.

(** [s.substring(start, stop)]: both indices are clamped to the length and
    swapped when out of order. *)
Definition substring (s : string) (start stop : nat) : string :=
  let len := String.length s in
  let a := Nat.min start len in
  let b := Nat.min stop len in
  String.substring (Nat.min a b) (Nat.max a b - Nat.min a b) s.

(** [s.substring(start)]: the missing end index is the length. *)
Definition substring_from (s : string) (start : nat) : string :=
  substring s start (String.length s).

(** A string is falsy exactly when it is empty. *)
Definition falsy (s : string) : bool :=
  match s with EmptyString => true | _ => false end.

(** White space and line terminators that [parseInt] strips, among the code
    units below 256: TAB, LF, VT, FF, CR, SP and NBSP. *)
Definition is_white (c : ascii) : bool :=
  let n := nat_of_ascii c in
  (((9 <=? n) && (n <=? 13)) || (n =? 32) || (n =? 160))%nat.

Fixpoint trim_start (s : string) : string :=
  match s with
  | String c r => if is_white c then trim_start r else s
  | EmptyString => s
  end.

(** The value of a code unit as a digit of the given radix, when it is one. *)
Definition digit_value (radix : Z) (c : ascii) : option Z :=
  let n := Z.of_nat (nat_of_ascii c) in
  let v :=
    (if (48 <=? n) && (n <=? 57) then Some (n - 48)
     else if (97 <=? n) && (n <=? 122) then Some (n - 87)
     else if (65 <=? n) && (n <=? 90) then Some (n - 55)
     else None)%Z in
  match v with
  | Some d => if (d <? radix)%Z then Some d else None
  | None => None
  end.

(** The longest prefix of radix digits, read as a number; [None] when the
    prefix is empty. *)
Fixpoint digits_prefix (radix : Z) (acc : option Z) (s : string) : option Z :=
  match s with
  | String c r =>
      match digit_value radix c with
      | Some d =>
          digits_prefix radix
            (Some (match acc with Some a => a * radix + d | None => d end)%Z) r
      | None => acc
      end
  | EmptyString => acc
  end.

(** [parseInt(s)] with no radix argument.  [None] is NaN; minus zero is
    zero. *)
Definition parseInt (s : string) : option Z :=
  let s := trim_start s in
  let '(sign, s) :=
    match s with
    | String "-" r => ((-1)%Z, r)
    | String "+" r => (1%Z, r)
    | _ => (1%Z, s)
    end in
  let '(radix, s) :=
    match s with
    | String "0" (String "x" r) => (16%Z, r)
    | String "0" (String "X" r) => (16%Z, r)
    | _ => (10%Z, s)
    end in
  match digits_prefix radix None s with
  | Some n => Some (sign * n)%Z
  | None => None
  end.

(** *** Dates

    [new Date(year, monthIndex, day)] builds a local calendar day and
    [toLocaleDateString] reads the local calendar day back, so a date is the
    number of its day counted from 1 January 1970; [None] is the invalid
    date.  The day arithmetic is ECMAScript's.  This is the process in a time
    zone that has every calendar day; [Zoned] below has the zones that
    skipped one. *)

Local Open Scope Z_scope.

Definition DayFromYear (y : Z) : Z :=
  365 * (y - 1970) + (y - 1969) / 4 - (y - 1901) / 100 + (y - 1601) / 400.

Definition DaysInYear (y : Z) : Z :=
  if negb (y mod 4 =? 0) then 365
  else if negb (y mod 100 =? 0) then 366
  else if negb (y mod 400 =? 0) then 365
  else 366.

Definition InLeapYear (y : Z) : Z := if DaysInYear y =? 366 then 1 else 0.

Fixpoint climb_year (fuel : nat) (day y : Z) : Z :=
  match fuel with
  | O => y
  | S fuel => if DayFromYear (y + 1) <=? day then climb_year fuel day (y + 1) else y
  end.

(** The largest year whose first day is not after [day]: a lower bound, then
    a short climb. *)
Definition YearFromDay (day : Z) : Z :=
  let low := 1970 + (if 0 <=? day then day / 366 else day / 365) in
  climb_year (Z.to_nat (Z.abs day / 100000) + 3) day low.

(** Days of the year before month [m] (0 is January). *)
Definition days_before_month (leap m : Z) : Z :=
  match m with
  | 0 => 0
  | 1 => 31
  | 2 => 59 + leap
  | 3 => 90 + leap
  | 4 => 120 + leap
  | 5 => 151 + leap
  | 6 => 181 + leap
  | 7 => 212 + leap
  | 8 => 243 + leap
  | 9 => 273 + leap
  | 10 => 304 + leap
  | 11 => 334 + leap
  | _ => 365 + leap
  end.

Definition MonthFromDay (day : Z) : Z :=
  let y := YearFromDay day in
  let d := day - DayFromYear y in
  let leap := InLeapYear y in
  if d <? 31 then 0
  else if d <? 59 + leap then 1
  else if d <? 90 + leap then 2
  else if d <? 120 + leap then 3
  else if d <? 151 + leap then 4
  else if d <? 181 + leap then 5
  else if d <? 212 + leap then 6
  else if d <? 243 + leap then 7
  else if d <? 273 + leap then 8
  else if d <? 304 + leap then 9
  else if d <? 334 + leap then 10
  else 11.

Definition DateFromDay (day : Z) : Z :=
  let y := YearFromDay day in
  day - DayFromYear y - days_before_month (InLeapYear y) (MonthFromDay day) + 1.

(** [MakeDay]: months outside 0..11 carry into the year, days outside the
    month roll into the neighbouring months. *)
Definition MakeDay (year month date : Z) : Z :=
  let ym := year + month / 12 in
  let mn := month mod 12 in
  DayFromYear ym + days_before_month (InLeapYear ym) mn + date - 1.

(** A two-digit year argument of the [Date] constructor means 19xx. *)
Definition MakeFullYear (y : Z) : Z :=
  if (0 <=? y) && (y <=? 99) then 1900 + y else y.

Definition Date := option Z.

Definition new_Date (year month date : option Z) : Date :=
  match year, month, date with
  | Some y, Some m, Some d => Some (MakeDay (MakeFullYear y) m d)
  | _, _, _ => None
  end.

Definition month_name (m : Z) : string :=
  match m with
  | 0 => "January" | 1 => "February" | 2 => "March" | 3 => "April"
  | 4 => "May" | 5 => "June" | 6 => "July" | 7 => "August"
  | 8 => "September" | 9 => "October" | 10 => "November" | _ => "December"
  end%string.

Definition show_Z (z : Z) : string := NilZero.string_of_int (Z.to_int z).

(** [date.toLocaleDateString('en-US', {year: 'numeric', month: 'long',
    day: 'numeric'})]. *)
Definition toLocaleDateString_long (d : Date) : string :=
  match d with
  | None => "Invalid Date"%string
  | Some day =>
      (month_name (MonthFromDay day) ++ " " ++ show_Z (DateFromDay day)
         ++ ", " ++ show_Z (YearFromDay day))%string
  end.

End JS.

(** ** Completions

    A JavaScript computation either completes normally with a value or
    throws an [Error] carrying a message. *)

Inductive exn : Type := Error (message : string).

Definition message (e : exn) : string := let 'Error m := e in m.

Inductive completion (A : Type) : Type :=
| Normal (a : A)
| Throw (e : exn).

Arguments Normal {A} a.
Arguments Throw {A} e.

(** ** The GS1 parser, [gs1-parser-test.js] *)

Module GS1.

(** The object [parseGS1DataMatrix] builds.  A property that was never
    assigned reads as [undefined]: [None].  [serialNumber] is read by the
    caller ([parsed.serialNumber]) and so is part of the shape. *)
Record ParsedRecord : Type := mkRecord {
  raw : string;
  gtin : option string;
  ndc : option string;
  expirationDateRaw : option string;
  expirationDate : option string;
  lotNumber : option string;
  serialNumber : option string
}.

(** The error [convertGTINtoNDC] throws. *)
Definition InvalidFormat : exn := Error "Invalid GTIN format. Expected 14 digits.".

(** [convertGTINtoNDC(gtin)] on a string argument. *)
Definition convertGTINtoNDC (gtin : string) : completion string :=
  if JS.falsy gtin || negb (String.length gtin =? 14)%nat then Throw InvalidFormat
  else
    let withoutPrefix := JS.substring_from gtin 3 in
    let labeler := JS.substring withoutPrefix 0 5 in
    let product := JS.substring withoutPrefix 5 9 in
    let packageCode := JS.substring withoutPrefix 9 11 in
    Normal (labeler ++ "-" ++ product ++ "-" ++ packageCode).

(** [const fullYear = year <= 30 ? 2000 + year : 1900 + year]; a comparison
    with NaN is false and a sum with NaN is NaN. *)
Definition fullYear (year : option Z) : option Z :=
  match year with
  | Some y => Some (if y <=? 30 then 2000 + y else 1900 + y)%Z
  | None => None
  end.

Definition minus_one (month : option Z) : option Z :=
  match month with
  | Some m => Some (m - 1)%Z
  | None => None
  end.

(** [formatExpirationDate(yymmdd)] on a string argument. *)
Definition formatExpirationDate (yymmdd : string) : string :=
  if JS.falsy yymmdd || negb (String.length yymmdd =? 6)%nat then yymmdd
  else
    let year := JS.parseInt (JS.substring yymmdd 0 2) in
    let month := JS.parseInt (JS.substring yymmdd 2 4) in
    let day := JS.parseInt (JS.substring yymmdd 4 6) in
    let date := JS.new_Date (fullYear year) (minus_one month) day in
    JS.toLocaleDateString_long date.

(** The NDC in the words of the specification: digits 4 to 8, 9 to 12 and
    13 to 14 of the GTIN, counted from 1, joined with hyphens. *)
Definition digits (gtin : string) (first last : nat) : string :=
  String.substring (first - 1) (last - first + 1) gtin.

Definition ndc_of_digits (gtin : string) : string :=
  digits gtin 4 8 ++ "-" ++ digits gtin 9 12 ++ "-" ++ digits gtin 13 14.

(** A number below 100 written with two decimal digits. *)
Definition digit (d : nat) : ascii := ascii_of_nat (48 + d).

Definition two_digits (n : nat) : string :=
  String (digit (n / 10)) (String (digit (n mod 10)) EmptyString).

(** *** The parser's effects

    The parser assigns the properties of one [result] object as it goes and
    may be interrupted by a throw; the assignments made before the throw
    stay.  A parser action takes the object and gives it back with a
    completion. *)

Definition P (A : Type) : Type := ParsedRecord -> ParsedRecord * completion A.

Definition ret {A} (a : A) : P A := fun r => (r, Normal a).

Definition bind {A B} (m : P A) (k : A -> P B) : P B :=
  fun r =>
    match m r with
    | (r', Normal a) => k a r'
    | (r', Throw e) => (r', Throw e)
    end.

Definition lift {A} (c : completion A) : P A := fun r => (r, c).

Notation "x <- m ;; k" := (bind m (fun x => k))
  (at level 61, m at next level, right associativity).
Notation "m ;;; k" := (bind m (fun _ => k))
  (at level 61, right associativity).

Definition set_gtin (v : string) : P unit := fun r =>
  (mkRecord (raw r) (Some v) (ndc r) (expirationDateRaw r) (expirationDate r)
     (lotNumber r) (serialNumber r), Normal tt).

Definition set_ndc (v : string) : P unit := fun r =>
  (mkRecord (raw r) (gtin r) (Some v) (expirationDateRaw r) (expirationDate r)
     (lotNumber r) (serialNumber r), Normal tt).

Definition set_expirationDateRaw (v : string) : P unit := fun r =>
  (mkRecord (raw r) (gtin r) (ndc r) (Some v) (expirationDate r)
     (lotNumber r) (serialNumber r), Normal tt).

Definition set_expirationDate (v : string) : P unit := fun r =>
  (mkRecord (raw r) (gtin r) (ndc r) (expirationDateRaw r) (Some v)
     (lotNumber r) (serialNumber r), Normal tt).

Definition set_lotNumber (v : string) : P unit := fun r =>
  (mkRecord (raw r) (gtin r) (ndc r) (expirationDateRaw r) (expirationDate r)
     (Some v) (serialNumber r), Normal tt).

(** The three steps of the [try] block.  Each takes the cursor [pos] and
    returns the cursor the next step starts from. *)

(** [if (data.substring(pos, pos + 2) === '01') { ... }] *)
Definition step_gtin (data : string) (pos : nat) : P nat :=
  if JS.substring data pos (pos + 2) =? "01" then
    let pos := pos + 2 in
    let g := JS.substring data pos (pos + 14) in
    set_gtin g ;;;
    n <- lift (convertGTINtoNDC g) ;;
    set_ndc n ;;;
    ret (pos + 14)
  else ret pos.

(** [if (data.substring(pos, pos + 2) === '17') { ... }] *)
Definition step_expiration (data : string) (pos : nat) : P nat :=
  if JS.substring data pos (pos + 2) =? "17" then
    let pos := pos + 2 in
    let e := JS.substring data pos (pos + 6) in
    set_expirationDateRaw e ;;;
    set_expirationDate (formatExpirationDate e) ;;;
    ret (pos + 6)
  else ret pos.

(** [if (data.substring(pos, pos + 2) === '10') { ... }] *)
Definition step_lot (data : string) (pos : nat) : P nat :=
  if JS.substring data pos (pos + 2) =? "10" then
    let pos := pos + 2 in
    set_lotNumber (JS.substring_from data pos) ;;;
    ret pos
  else ret pos.

(** The body of the [try] block. *)
Definition parse_body (data : string) : P nat :=
  pos <- step_gtin data 0 ;;
  pos <- step_expiration data pos ;;
  step_lot data pos.

(** The cursor with which the lot-number test is reached, when it is. *)
Definition cursor_at_lot (data : string) : P nat :=
  pos <- step_gtin data 0 ;;
  step_expiration data pos.

Definition empty_result (data : string) : ParsedRecord :=
  mkRecord data None None None None None None.

(** The whole function: the object and what the [catch] handler wrote with
    [console.error]. *)
Definition run_parse (data : string) : ParsedRecord * list exn :=
  match parse_body data (empty_result data) with
  | (result, Normal _) => (result, [])
  | (result, Throw error) => (result, [error])
  end.

(** [parseGS1DataMatrix(data)]: the object it returns. *)
Definition parseGS1DataMatrix (data : string) : ParsedRecord :=
  fst (run_parse data).

End GS1.

(** ** The decode cascade, [decode-dm.js] *)

Module Decode.

Local Open Scope list_scope.
Local Open Scope Z_scope.

(** The operations of a [sharp(file)] chain.  Gains and sigmas are in tenths
    ([linear 16 (-30)] is [.linear(1.6, -30)]); [sharpen None] is
    [.sharpen()]. *)
Inductive filter : Type :=
| median (size : Z)
| linear (gain_tenths bias : Z)
| sharpen (sigma_tenths : option Z)
| threshold (level : Z)
| rotate (angle : Z)
| png.

(** One element of the array [readBarcodes] resolves to. *)
Record ReadResult : Type := mkResult { text : string; isValid : bool }.

Record ReaderOptions : Type := mkOptions {
  formats : list string;
  tryHarder : bool;
  maxNumberOfSymbols : Z
}.

(** What the script does that can be seen from outside, in order. *)
Inductive event (Buffer : Type) : Type :=
| sharp_toBuffer (ops : list filter)
| readBarcodes_call (buffer : Buffer) (options : option ReaderOptions)
| readFile_call
| console_log (line : string)
| console_error (line : string).

Arguments sharp_toBuffer {Buffer} ops.
Arguments readBarcodes_call {Buffer} buffer options.
Arguments readFile_call {Buffer}.
Arguments console_log {Buffer} line.
Arguments console_error {Buffer} line.

(** A step of the script goes on with a value, throws, or ends the process
    with [process.exit(code)]; [catch] handles a throw and never an exit. *)
Inductive status (A : Type) : Type :=
| Running (a : A)
| Thrown (e : exn)
| Exited (code : Z).

Arguments Running {A} a.
Arguments Thrown {A} e.
Arguments Exited {A} code.

Section Pipeline.

(** The image file and the capabilities the script awaits: each is a
    function of its arguments, and throws or resolves. *)
Variable Buffer : Type.
Variable sharp : list filter -> completion Buffer.
Variable readBarcodes :
  Buffer -> option ReaderOptions -> completion (option (list ReadResult)).
Variable readFile : completion Buffer.

Definition trace : Type := list (event Buffer).

Definition IO (A : Type) : Type := trace -> trace * status A.

Definition ret {A} (a : A) : IO A := fun tr => (tr, Running a).

Definition bind {A B} (m : IO A) (k : A -> IO B) : IO B :=
  fun tr =>
    match m tr with
    | (tr', Running a) => k a tr'
    | (tr', Thrown e) => (tr', Thrown e)
    | (tr', Exited c) => (tr', Exited c)
    end.

Notation "x <- m ;; k" := (bind m (fun x => k))
  (at level 61, m at next level, right associativity).
Notation "m ;;; k" := (bind m (fun _ => k))
  (at level 61, right associativity).

Definition await {A} (ev : event Buffer) (c : completion A) : IO A :=
  fun tr =>
    match c with
    | Normal a => (tr ++ [ev], Running a)
    | Throw e => (tr ++ [ev], Thrown e)
    end.

Definition emit (ev : event Buffer) : IO unit := fun tr => (tr ++ [ev], Running tt).

Definition process_exit {A} (code : Z) : IO A := fun tr => (tr, Exited code).

Definition try_catch (body : IO unit) (handler : exn -> IO unit) : IO unit :=
  fun tr =>
    match body tr with
    | (tr', Thrown e) => handler e tr'
    | other => other
    end.

Fixpoint for_of {A} (xs : list A) (body : A -> IO unit) : IO unit :=
  match xs with
  | [] => ret tt
  | x :: rest => body x ;;; for_of rest body
  end.

Definition await_sharp (ops : list filter) : IO Buffer :=
  await (sharp_toBuffer ops) (sharp ops).

Definition await_readBarcodes (b : Buffer) (o : option ReaderOptions)
  : IO (option (list ReadResult)) :=
  await (readBarcodes_call b o) (readBarcodes b o).

Definition await_readFile : IO Buffer := await readFile_call readFile.

(** [{ formats: ['DataMatrix'], tryHarder: true, maxNumberOfSymbols: 10 }] *)
Definition dataMatrixOptions : option ReaderOptions :=
  Some (mkOptions ["DataMatrix"] true 10).

(** [rs && rs.length > 0 && rs[0].isValid], with [rs[0].text] when it holds
    ([None] for [rs] is a null or undefined [rs]). *)
Definition first_if_valid (rs : option (list ReadResult)) : option string :=
  match rs with
  | Some (r :: _) => if isValid r then Some (text r) else None
  | _ => None
  end.

(** [rs && rs.length > 0], then [rs.filter(r => r.isValid)] not empty, with
    the text of its first element. *)
Definition first_valid (rs : option (list ReadResult)) : option string :=
  match rs with
  | Some (r :: rest) =>
      match List.filter isValid (r :: rest) with
      | v :: _ => Some (text v)
      | [] => None
      end
  | _ => None
  end.

Definition log_and_exit (accepted : option string) : IO unit :=
  match accepted with
  | Some t => emit (console_log t) ;;; process_exit 0
  | None => ret tt
  end.

(** The body of the [try] block. *)
Definition try_block : IO unit :=
  (* 1. Sharp pre-processing with PNG buffer *)
  pngBuffer <- await_sharp [median 3; linear 16 (-30); sharpen None; png] ;;
  results <- await_readBarcodes pngBuffer dataMatrixOptions ;;
  log_and_exit (first_if_valid results) ;;;
  (* 2. Try with enhanced preprocessing for difficult cases *)
  enhancedBuffer <-
    await_sharp [median 5; linear 20 (-50); sharpen (Some 15); threshold 128; png] ;;
  enhancedResults <- await_readBarcodes enhancedBuffer dataMatrixOptions ;;
  log_and_exit (first_if_valid enhancedResults) ;;;
  (* 3. Try with different rotations *)
  for_of [90; 180; 270] (fun angle =>
    rotatedBuffer <-
      await_sharp [median 3; linear 16 (-30); sharpen None; rotate angle; png] ;;
    rotatedResults <- await_readBarcodes rotatedBuffer dataMatrixOptions ;;
    log_and_exit (first_valid rotatedResults)) ;;;
  (* 4. Try with original file as fallback *)
  originalBuffer <- await_readFile ;;
  originalResults <- await_readBarcodes originalBuffer None ;;
  log_and_exit (first_valid originalResults) ;;;
  (* 5. No decode successful *)
  emit (console_error "Decode failed") ;;;
  process_exit 2.

(** [try { ... } catch (error) { ... }] *)
Definition pipeline : IO unit :=
  try_catch try_block (fun error =>
    emit (console_error ("Processing error: " ++ message error)%string) ;;;
    process_exit 2).

(** The whole script: the usage test on the argument, then the [try]
    statement.  [file_ok] is [file && fs.existsSync(file)]. *)
Definition script (file_ok : bool) : IO unit :=
  if negb file_ok then
    emit (console_error "Usage: decode-dm.js <image>") ;;;
    process_exit 1
  else pipeline.

(** A run of the script from the [try] on: what it did and how it ended. *)
Definition run : trace * status unit := pipeline [].

Definition exit_code (r : trace * status unit) : option Z :=
  match snd r with
  | Exited c => Some c
  | _ => None
  end.

Fixpoint stdout (tr : trace) : list string :=
  match tr with
  | console_log l :: rest => l :: stdout rest
  | _ :: rest => stdout rest
  | [] => []
  end.

Fixpoint stderr (tr : trace) : list string :=
  match tr with
  | console_error l :: rest => l :: stderr rest
  | _ :: rest => stderr rest
  | [] => []
  end.

(** *** The attempts one by one

    The cascade read as the ordered list of strategies of the design: what
    each attempt asks of the capabilities and which result it accepts, taken
    from the four parts of the [try] block. *)

Inductive attempt : Type :=
| standard
| enhanced
| rotated (angle : Z)
| original.

(** The fixed order. *)
Definition attempts : list attempt :=
  [standard; enhanced; rotated 90; rotated 180; rotated 270; original].

(** The strategy, numbered from 1, an attempt belongs to. *)
Definition strategy (a : attempt) : nat :=
  match a with
  | standard => 1
  | enhanced => 2
  | rotated _ => 3
  | original => 4
  end.

Definition recipe (a : attempt) : list filter :=
  match a with
  | standard => [median 3; linear 16 (-30); sharpen None; png]
  | enhanced => [median 5; linear 20 (-50); sharpen (Some 15); threshold 128; png]
  | rotated angle => [median 3; linear 16 (-30); sharpen None; rotate angle; png]
  | original => []
  end.

(** The call that gives the attempt its buffer, and its completion. *)
Definition source_event (a : attempt) : event Buffer :=
  match a with
  | original => readFile_call
  | _ => sharp_toBuffer (recipe a)
  end.

Definition source (a : attempt) : completion Buffer :=
  match a with
  | original => readFile
  | _ => sharp (recipe a)
  end.

Definition options (a : attempt) : option ReaderOptions :=
  match a with
  | original => None
  | _ => dataMatrixOptions
  end.

Definition accept (a : attempt) : option (list ReadResult) -> option string :=
  match a with
  | standard | enhanced => first_if_valid
  | rotated _ | original => first_valid
  end.

(** What an attempt yields on the image: an error of a capability, no
    accepted result, or a valid decode and its text. *)
Inductive verdict : Type :=
| Raised (e : exn)
| NoResult
| Valid (t : string).

Definition outcome (a : attempt) : verdict :=
  match source a with
  | Throw e => Raised e
  | Normal b =>
      match readBarcodes b (options a) with
      | Throw e => Raised e
      | Normal rs =>
          match accept a rs with
          | Some t => Valid t
          | None => NoResult
          end
      end
  end.

(** The capability calls of one attempt. *)
Definition events_of (a : attempt) : trace :=
  source_event a ::
  match source a with
  | Normal b => [readBarcodes_call b (options a)]
  | Throw _ => []
  end.

(** One part of the [try] block, for the attempt [a], followed by the rest
    [k] of the block. *)
Definition part (a : attempt) (k : IO unit) : IO unit :=
  buffer <- await (source_event a) (source a) ;;
  results <- await_readBarcodes buffer (options a) ;;
  log_and_exit (accept a results) ;;;
  k.

(** The cascade over a list of attempts, as a state machine: the first
    error ends the run with a processing error, the first valid decode ends
    it with success, and the end of the list with a decode failure. *)
Fixpoint cascade (todo : list attempt) (tr : trace) : trace * status unit :=
  match todo with
  | [] => (tr ++ [console_error "Decode failed"], Exited 2)
  | a :: rest =>
      let tr := tr ++ events_of a in
      match outcome a with
      | Raised e =>
          (tr ++ [console_error ("Processing error: " ++ message e)%string], Exited 2)
      | NoResult => cascade rest tr
      | Valid t => (tr ++ [console_log t], Exited 0)
      end
  end.

(** The attempts a trace shows as begun, in order. *)
Definition filter_eqb (f g : filter) : bool :=
  match f, g with
  | median a, median b => a =? b
  | linear a b, linear c d => (a =? c) && (b =? d)
  | sharpen None, sharpen None => true
  | sharpen (Some a), sharpen (Some b) => a =? b
  | threshold a, threshold b => a =? b
  | rotate a, rotate b => a =? b
  | png, png => true
  | _, _ => false
  end.

Fixpoint ops_eqb (p q : list filter) : bool :=
  match p, q with
  | [], [] => true
  | f :: p, g :: q => filter_eqb f g && ops_eqb p q
  | _, _ => false
  end.

Definition begins (ev : event Buffer) : option attempt :=
  match ev with
  | sharp_toBuffer ops =>
      List.find (fun a => ops_eqb ops (recipe a))
        [standard; enhanced; rotated 90; rotated 180; rotated 270]
  | readFile_call => Some original
  | _ => None
  end.

Fixpoint started (tr : trace) : list attempt :=
  match tr with
  | ev :: rest =>
      match begins ev with
      | Some a => a :: started rest
      | None => started rest
      end
  | [] => []
  end.

(** The recovery the specification describes: an attempt that begins and
    raises is followed by the next attempt of the fixed order. *)
Definition recovers_per_attempt : Prop :=
  forall pre a next post e,
    attempts = pre ++ a :: next :: post ->
    In a (started (fst run)) ->
    outcome a = Raised e ->
    In next (started (fst run)).

End Pipeline.

Arguments run {Buffer} sharp readBarcodes readFile.
Arguments pipeline {Buffer} sharp readBarcodes readFile.
Arguments try_block {Buffer} sharp readBarcodes readFile.
Arguments outcome {Buffer} sharp readBarcodes readFile a.
Arguments cascade {Buffer} sharp readBarcodes readFile todo tr.
Arguments events_of {Buffer} sharp readFile a.
Arguments part {Buffer} sharp readBarcodes readFile a k.
Arguments source {Buffer} sharp readFile a.
Arguments source_event {Buffer} a.
Arguments begins {Buffer} ev.
Arguments started {Buffer} tr.
Arguments stdout {Buffer} tr.
Arguments stderr {Buffer} tr.
Arguments exit_code {Buffer} r.
Arguments recovers_per_attempt {Buffer} sharp readBarcodes readFile.

End Decode.

(** ** Concrete images

    Environments for the cascade in which a buffer is named by the chain
    that made it, the bytes of the file itself by the empty chain. *)

Module Scenario.

Import Decode.

Definition Buffer : Type := list filter.

Definition sharp (ops : list filter) : completion Buffer := Normal ops.

Definition readFile : completion Buffer := Normal [].

Definition is_buffer_of (a : attempt) (b : Buffer) : bool := ops_eqb b (recipe a).

(** The decode engine throws on the standard buffer and reads a valid symbol
    from every other buffer. *)
Definition engine_raises_on_standard (b : Buffer) (o : option ReaderOptions)
  : completion (option (list ReadResult)) :=
  if is_buffer_of standard b then Throw (Error "decode engine exception")
  else Normal (Some [mkResult "010034928158905817131028100U42275AA" true]).

(** The decode engine throws on the enhanced buffer and finds no symbol in
    any other buffer. *)
Definition engine_raises_on_enhanced (b : Buffer) (o : option ReaderOptions)
  : completion (option (list ReadResult)) :=
  if is_buffer_of enhanced b then Throw (Error "decode engine exception")
  else Normal (Some []).

(** The decode engine throws on the buffer rotated by 180 degrees and finds
    only an invalid symbol in every other buffer. *)
Definition engine_raises_on_rotated_180 (b : Buffer) (o : option ReaderOptions)
  : completion (option (list ReadResult)) :=
  if is_buffer_of (rotated 180) b then Throw (Error "decode engine exception")
  else Normal (Some [mkResult "?" false]).

(** No symbol at rotation 0, and at 90 degrees an invalid result followed by
    a valid one. *)
Definition engine_reads_at_90 (b : Buffer) (o : option ReaderOptions)
  : completion (option (list ReadResult)) :=
  if is_buffer_of (rotated 90) b
  then Normal (Some [mkResult "?" false; mkResult "0100349281589058" true])
  else if is_buffer_of enhanced b then Normal (Some [mkResult "?" false])
  else Normal (Some []).

(** No symbol in any buffer. *)
Definition engine_reads_nothing (b : Buffer) (o : option ReaderOptions)
  : completion (option (list ReadResult)) :=
  Normal (Some []).

End Scenario.

(** ** The payload format

    The payload the parser expects, as the comments of
    [parseGS1DataMatrix] give it: the elements 01, 17 and 10 in this order,
    each one the identifier followed by its value, each one optional. *)

Module Wire.

Definition element (ai : string) (value : option string) : string :=
  match value with
  | Some v => ai ++ v
  | None => EmptyString
  end.

Definition payload (gtin expiration lot : option string) : string :=
  element "01" gtin ++ element "17" expiration ++ element "10" lot.

End Wire.

(** ** The calendar

    The number of days of a month (1 is January) of a year. *)

Module Calendar.

Definition days_in_month (year : Z) (month : nat) : nat :=
  match month with
  | 2 => if (JS.DaysInYear year =? 366)%Z then 29 else 28
  | 4 | 6 | 9 | 11 => 30
  | _ => 31
  end.

End Calendar.

(** ** The time zone of the process

    [new Date(year, monthIndex, day)] is the instant of local midnight of a
    calendar day and [toLocaleDateString] prints the local calendar day of
    that instant, both in the time zone of the process.  Where the zone has
    that midnight, or skips it by an hour of daylight saving, the day printed
    is the day built.  Where the zone skipped the whole day it is a later
    one: Pacific/Apia went from 29 to 31 December 2011, and local midnight
    of the 30th, read with the offset before the change, is an instant of
    the 31st there.  A zone is given by the day it prints for each day
    built. *)

Module Zoned.

Definition Zone : Type := Z -> Z.

(** A zone that has every calendar day. *)
Definition plain : Zone := fun day => day.

(** A zone that skipped 30 December 2011, day 15338, as Pacific/Apia did. *)
Definition apia : Zone := fun day => if (day =? 15338)%Z then 15339%Z else day.

(** The zone prints the day [date] of the month [month] (1 is January) of
    [year] as itself. *)
Definition keeps (zone : Zone) (year month date : Z) : Prop :=
  zone (JS.MakeDay year (month - 1) date) = JS.MakeDay year (month - 1) date.

(** [new Date(year, monthIndex, day)], as the day that will be printed. *)
Definition new_Date (zone : Zone) (year month date : option Z) : JS.Date :=
  match JS.new_Date year month date with
  | Some day => Some (zone day)
  | None => None
  end.

(** [formatExpirationDate(yymmdd)] on a string argument, in a process whose
    time zone is [zone]. *)
Definition formatExpirationDate (zone : Zone) (yymmdd : string) : string :=
  if JS.falsy yymmdd || negb (String.length yymmdd =? 6)%nat then yymmdd
  else
    let year := JS.parseInt (JS.substring yymmdd 0 2) in
    let month := JS.parseInt (JS.substring yymmdd 2 4) in
    let day := JS.parseInt (JS.substring yymmdd 4 6) in
    let date := new_Date zone (GS1.fullYear year) (GS1.minus_one month) day in
    JS.toLocaleDateString_long date.

End Zoned.

(** ** The OpenFDA lookup, [queryOpenFDA] in [gs1-parser-test.js] *)

Module OpenFDA.

Local Open Scope list_scope.

(** [s.replace(/-/g, '')] *)
Fixpoint remove_hyphens (s : string) : string :=
  match s with
  | String c r =>
      if Ascii.eqb c "-" then remove_hyphens r else String c (remove_hyphens r)
  | EmptyString => EmptyString
  end.

(** The code units [encodeURIComponent] leaves as they are: letters, digits
    and [- _ . ! ~ * ' ( )]. *)
Definition unreserved (c : ascii) : bool :=
  let n := nat_of_ascii c in
  (((48 <=? n) && (n <=? 57)) || ((65 <=? n) && (n <=? 90))
   || ((97 <=? n) && (n <=? 122))
   || (n =? 45) || (n =? 95) || (n =? 46) || (n =? 33) || (n =? 126)
   || (n =? 42) || (n =? 39) || (n =? 40) || (n =? 41))%nat.

Definition hex_digit (n : nat) : ascii :=
  if (n <? 10)%nat then ascii_of_nat (48 + n) else ascii_of_nat (55 + n).

(** One byte as a percent sign and two upper-case hexadecimal digits. *)
Definition percent (byte : nat) : string :=
  String "%" (String (hex_digit (byte / 16)) (String (hex_digit (byte mod 16)) "")).

(** A code unit below 128 is one UTF-8 byte, one from 128 to 255 is two. *)
Definition encode_unit (c : ascii) : string :=
  let n := nat_of_ascii c in
  if unreserved c then String c ""
  else if (n <? 128)%nat then percent n
  else (percent (192 + n / 64) ++ percent (128 + n mod 64))%string.

(** [encodeURIComponent(s)] *)
Fixpoint encodeURIComponent (s : string) : string :=
  match s with
  | String c r => (encode_unit c ++ encodeURIComponent r)%string
  | EmptyString => EmptyString
  end.


(** The double quote, as a string. *)
Definition quote : string := String (ascii_of_nat 34) "".

(** The array [searchPatterns]. *)
Definition searchPatterns (ndc : string) : list string :=
  let cleanNDC := remove_hyphens ndc in
  [ ("product_ndc:" ++ quote ++ ndc ++ quote)%string;
    ("product_ndc:" ++ quote ++ JS.substring cleanNDC 0 5 ++ "-"
       ++ JS.substring cleanNDC 5 9 ++ quote)%string;
    ("product_ndc:" ++ JS.substring cleanNDC 0 5 ++ "*")%string ].

(** The [url] of a query. *)
Definition url_of (searchQuery : string) : string :=
  ("https://api.fda.gov/drug/ndc.json?search=" ++ encodeURIComponent searchQuery
     ++ "&limit=5")%string.

Section Lookup.

(** A drug record of the database, and what [fetch] resolves to: [json] is
    the completion of [response.json()] read at [.results], [None] when the
    body has no such property. *)
Variable Drug : Type.

Record Response : Type := mkResponse {
  ok : bool;
  status : Z;
  json : completion (option (list Drug))
}.

Variable fetch : string -> completion Response.

(** What the function returns. *)
Inductive Result : Type :=
| Found (searchQuery : string) (result : Drug) (allResults : list Drug)
| NotFound (error : string).

(** What the function does that can be seen from outside: the requests and
    the lines it logs, each line by its template and its arguments. *)
Inductive event : Type :=
| fetch_call (url : string)
| log_trying (searchQuery : string)
| log_found (searchQuery : string)
| log_no_results (searchQuery : string)
| log_api_error (status : Z)
| log_query_error (searchQuery : string) (message : string).

(** The [for ... of] loop over the patterns, with its inner [try]. *)
Fixpoint query_loop (patterns : list string) (tr : list event)
  : list event * Result :=
  match patterns with
  | [] => (tr, NotFound "No matching drug information found in OpenFDA database")
  | searchQuery :: rest =>
      let url := url_of searchQuery in
      let tr := tr ++ [log_trying searchQuery; fetch_call url] in
      match fetch url with
      | Throw queryError =>
          query_loop rest (tr ++ [log_query_error searchQuery (message queryError)])
      | Normal response =>
          if ok response then
            match json response with
            | Throw queryError =>
                query_loop rest
                  (tr ++ [log_query_error searchQuery (message queryError)])
            | Normal (Some (first :: others)) =>
                (tr ++ [log_found searchQuery],
                 Found searchQuery first (first :: others))
            | Normal _ => query_loop rest tr
            end
          else if (status response =? 404)%Z then
            query_loop rest (tr ++ [log_no_results searchQuery])
          else query_loop rest (tr ++ [log_api_error (status response)])
      end
  end.

(** [queryOpenFDA(ndc)] on a string of code units below 256;
    [encodeURIComponent] accepts every such string, so nothing outside the
    inner [try] throws and the outer handler is not entered.
    [Engine.queryOpenFDA] below has the outer handler. *)
Definition queryOpenFDA (ndc : string) : list event * Result :=
  query_loop (searchPatterns ndc) [].

(** The requests of a trace, in order. *)
Fixpoint requests (tr : list event) : list string :=
  match tr with
  | fetch_call url :: rest => url :: requests rest
  | _ :: rest => requests rest
  | [] => []
  end.

(** What one query finds: the records of an [ok] response whose [results]
    is a non-empty array. *)
Definition hit (searchQuery : string) : option (Drug * list Drug) :=
  match fetch (url_of searchQuery) with
  | Normal response =>
      if ok response then
        match json response with
        | Normal (Some (first :: others)) => Some (first, first :: others)
        | _ => None
        end
      else None
  | Throw _ => None
  end.

End Lookup.

Arguments mkResponse {Drug} ok status json.
Arguments ok {Drug} r.
Arguments status {Drug} r.
Arguments json {Drug} r.
Arguments Found {Drug} searchQuery result allResults.
Arguments NotFound {Drug} error.
Arguments query_loop {Drug} fetch patterns tr.
Arguments queryOpenFDA {Drug} fetch ndc.
Arguments hit {Drug} fetch searchQuery.

(** *** The lookup with the outer handler

    [encodeURIComponent] is the engine's.  On a string that holds a lone
    surrogate it throws a URIError; it does so where the address is built,
    outside the inner [try], and the outer handler of [queryOpenFDA] turns
    the error into a result.  No string of code units below 256 holds a
    surrogate, so here the encoder is a capability: it returns the encoded
    string or throws. *)

Module Engine.

Section Outer.

Variable Drug : Type.
Variable encode : string -> completion string.
Variable fetch : string -> completion (Response Drug).

(** The template of [url] around the encoded query. *)
Definition address (encoded : string) : string :=
  ("https://api.fda.gov/drug/ndc.json?search=" ++ encoded ++ "&limit=5")%string.

(** The [for ... of] loop over the patterns: the address is built before
    the inner [try] is entered, and a throw there leaves the loop. *)
Fixpoint query_loop (patterns : list string) (tr : list event)
  : list event * completion (Result Drug) :=
  match patterns with
  | [] =>
      (tr, Normal (NotFound "No matching drug information found in OpenFDA database"))
  | searchQuery :: rest =>
      match encode searchQuery with
      | Throw error => (tr, Throw error)
      | Normal encoded =>
          let url := address encoded in
          let tr := tr ++ [log_trying searchQuery; fetch_call url] in
          match fetch url with
          | Throw queryError =>
              query_loop rest
                (tr ++ [log_query_error searchQuery (message queryError)])
          | Normal response =>
              if ok response then
                match json response with
                | Throw queryError =>
                    query_loop rest
                      (tr ++ [log_query_error searchQuery (message queryError)])
                | Normal (Some (first :: others)) =>
                    (tr ++ [log_found searchQuery],
                     Normal (Found searchQuery first (first :: others)))
                | Normal _ => query_loop rest tr
                end
              else if (status response =? 404)%Z then
                query_loop rest (tr ++ [log_no_results searchQuery])
              else query_loop rest (tr ++ [log_api_error (status response)])
          end
      end
  end.

(** [queryOpenFDA(ndc)] on a string argument, with its outer [try] and
    [catch]. *)
Definition queryOpenFDA (ndc : string) : list event * Result Drug :=
  match query_loop (searchPatterns ndc) [] with
  | (tr, Normal result) => (tr, result)
  | (tr, Throw error) =>
      (tr, NotFound ("Failed to fetch drug information: " ++ message error))
  end.

(** What one query comes to: its address cannot be built, or its request
    finds nothing, or it finds records. *)
Inductive answer : Type :=
| Malformed (error : exn)
| Nothing
| Records (first : Drug) (all : list Drug).

Definition answer_of (searchQuery : string) : answer :=
  match encode searchQuery with
  | Throw error => Malformed error
  | Normal encoded =>
      match fetch (address encoded) with
      | Normal response =>
          if ok response then
            match json response with
            | Normal (Some (first :: others)) => Records first (first :: others)
            | _ => Nothing
            end
          else Nothing
      | Throw _ => Nothing
      end
  end.

(** The request a query sends, when its address can be built. *)
Definition sent (searchQuery : string) : list string :=
  match encode searchQuery with
  | Normal encoded => [address encoded]
  | Throw _ => []
  end.

End Outer.

Arguments query_loop {Drug} encode fetch patterns tr.
Arguments queryOpenFDA {Drug} encode fetch ndc.
Arguments Malformed {Drug} error.
Arguments Nothing {Drug}.
Arguments Records {Drug} first all.
Arguments answer_of {Drug} encode fetch searchQuery.

(** The encoder on the strings of code units below 256: it never throws. *)
Definition encode_units (s : string) : completion string :=
  Normal (encodeURIComponent s).

End Engine.

End OpenFDA.

(** Databases for the lookup, a drug record being its name. *)

Module Database.

Import OpenFDA.

Definition Drug : Type := string.

(** The request of the exact query fails, the one without the package code
    finds two records, every other address answers 404. *)
Definition fetch_finds_product (url : string) : completion (Response Drug) :=
  if (url =? "https://api.fda.gov/drug/ndc.json?search=product_ndc%3A%2249281-5890-58%22&limit=5")%string
  then Throw (Error "fetch failed")
  else if (url =? "https://api.fda.gov/drug/ndc.json?search=product_ndc%3A%2249281-5890%22&limit=5")%string
  then Normal (mkResponse true 200 (Normal (Some ["Fluzone"%string; "Fluzone High-Dose"%string])))
  else Normal (mkResponse false 404 (Normal None)).

(** Every request is answered with status 500. *)
Definition fetch_server_error (url : string) : completion (Response Drug) :=
  Normal (mkResponse false 500 (Normal None)).

(** An encoder that throws on the query [malformed], as the engine does on
    a query that ends in the first half of a surrogate pair. *)
Definition encode_but (malformed : string) (s : string) : completion string :=
  if (s =? malformed)%string then Throw (Error "URI malformed")
  else Normal (encodeURIComponent s).

End Database.

(** * Properties *)

(** ** Strings *)

Section StringFacts.

Lemma length_substring (s : string) : forall n m,
  String.length (String.substring n m s) = Nat.min m (String.length s - n).
Proof.
  induction s as [|c s IH]; intros [|n] [|m];
    cbn [String.substring String.length]; rewrite ?IH; lia.
Qed.

Lemma substring_add (s : string) : forall n a b,
  String.substring n (a + b) s
  = (String.substring n a s ++ String.substring (n + a) b s)%string.
Proof.
  induction s as [|c s IH]; intros [|n] [|a] b; simpl;
    try (destruct b; reflexivity).
  - f_equal. apply (IH 0 a b).
  - apply (IH n 0 b).
  - apply (IH n (S a) b).
Qed.

Lemma substring_whole (s : string) :
  String.substring 0 (String.length s) s = s.
Proof. induction s; simpl; congruence. Qed.

Lemma length_JS_substring (s : string) (a b : nat) :
  a <= b ->
  String.length (JS.substring s a b)
  = Nat.min b (String.length s) - Nat.min a (String.length s).
Proof.
  intros Hab. unfold JS.substring. rewrite length_substring. lia.
Qed.

Lemma substring_three (s : string) (a b : nat) :
  a <= b <= String.length s ->
  s = (String.substring 0 a s ++ String.substring a (b - a) s
         ++ String.substring b (String.length s - b) s)%string.
Proof.
  intros Hab.
  pose proof (substring_add s 0 a (String.length s - a)) as E1.
  replace (a + (String.length s - a)) with (String.length s) in E1 by lia.
  pose proof (substring_add s a (b - a) (String.length s - b)) as E2.
  replace (b - a + (String.length s - b)) with (String.length s - a) in E2 by lia.
  replace (a + (b - a)) with b in E2 by lia.
  simpl in E1. rewrite <- E2, <- E1. symmetry. apply substring_whole.
Qed.

(** A string is its first [a] code units, then those from [a] to [b], then
    the rest. *)
Lemma JS_substring_split (s : string) (a b : nat) :
  a <= b ->
  s = (JS.substring s 0 a ++ JS.substring s a b ++ JS.substring_from s b)%string.
Proof.
  intros Hab. unfold JS.substring_from, JS.substring.
  set (len := String.length s).
  pose proof (substring_three s (Nat.min a len) (Nat.min b len)) as E.
  fold len in E.
  replace (Nat.min (Nat.min 0 len) (Nat.min a len)) with 0 by lia.
  replace (Nat.max (Nat.min 0 len) (Nat.min a len) - 0) with (Nat.min a len) by lia.
  replace (Nat.min (Nat.min a len) (Nat.min b len)) with (Nat.min a len) by lia.
  replace (Nat.max (Nat.min a len) (Nat.min b len) - Nat.min a len)
    with (Nat.min b len - Nat.min a len) by lia.
  replace (Nat.min (Nat.min b len) (Nat.min len len)) with (Nat.min b len) by lia.
  replace (Nat.max (Nat.min b len) (Nat.min len len) - Nat.min b len)
    with (len - Nat.min b len) by lia.
  apply E. lia.
Qed.

End StringFacts.

(** ** The GTIN to NDC converter *)

Section Converter.

Import GS1.

Lemma convertGTINtoNDC_short (gtin : string) :
  String.length gtin <> 14 -> convertGTINtoNDC gtin = Throw InvalidFormat.
Proof.
  intros H. unfold convertGTINtoNDC.
  rewrite (proj2 (Nat.eqb_neq _ _) H). now rewrite orb_true_r.
Qed.

Lemma convertGTINtoNDC_14 (gtin : string) :
  String.length gtin = 14 -> convertGTINtoNDC gtin = Normal (ndc_of_digits gtin).
Proof.
  intros H.
  do 14 (destruct gtin as [|? gtin]; [discriminate H|]).
  destruct gtin; [reflexivity | discriminate H].
Qed.

Lemma convertGTINtoNDC_normal (gtin n : string) :
  convertGTINtoNDC gtin = Normal n -> String.length gtin = 14.
Proof.
  intros H. destruct (Nat.eq_dec (String.length gtin) 14) as [E|E]; [exact E|].
  rewrite (convertGTINtoNDC_short gtin E) in H. discriminate H.
Qed.

(** C3.  [convertGTINtoNDC] throws the invalid-format error on every string
    whose length is not 14.  On every string of length 14 it returns
    normally, and the value is fixed by the input: the first three code units
    are dropped and the other eleven are the groups of 5, 4 and 2 code units
    (digits 4 to 8, 9 to 12 and 13 to 14 counted from 1) joined with
    hyphens. *)
Theorem convertGTINtoNDC_spec (gtin : string) :
  (String.length gtin <> 14 -> convertGTINtoNDC gtin = Throw InvalidFormat) /\
  (String.length gtin = 14 ->
     convertGTINtoNDC gtin
     = Normal (digits gtin 4 8 ++ "-" ++ digits gtin 9 12 ++ "-" ++ digits gtin 13 14)
     /\ String.length (digits gtin 4 8) = 5
     /\ String.length (digits gtin 9 12) = 4
     /\ String.length (digits gtin 13 14) = 2
     /\ gtin = String.substring 0 3 gtin
               ++ digits gtin 4 8 ++ digits gtin 9 12 ++ digits gtin 13 14).
Proof.
  split.
  - apply convertGTINtoNDC_short.
  - intros H. split; [exact (convertGTINtoNDC_14 gtin H)|].
    unfold digits. rewrite !length_substring, H.
    repeat split; try reflexivity.
    do 14 (destruct gtin as [|? gtin]; [discriminate H|]).
    destruct gtin; [reflexivity | discriminate H].
Qed.

Lemma convertGTINtoNDC_spec_witness :
  convertGTINtoNDC "0112345" = Throw InvalidFormat /\
  convertGTINtoNDC "00349281589058" = Normal "49281-5890-58".
Proof.
  split.
  - apply (proj1 (convertGTINtoNDC_spec "0112345")). simpl. lia.
  - apply (proj2 (convertGTINtoNDC_spec "00349281589058")). reflexivity.
Defined.

End Converter.

(** ** The parser *)

Section Parser.

Import GS1.

(** Each step, by cases on its test. *)

Lemma step_gtin_absent (data : string) (pos : nat) (r : ParsedRecord) :
  JS.substring data pos (pos + 2) <> "01" -> step_gtin data pos r = (r, Normal pos).
Proof.
  intros H. unfold step_gtin. now rewrite (proj2 (String.eqb_neq _ _) H).
Qed.

Lemma step_expiration_absent (data : string) (pos : nat) (r : ParsedRecord) :
  JS.substring data pos (pos + 2) <> "17" -> step_expiration data pos r = (r, Normal pos).
Proof.
  intros H. unfold step_expiration. now rewrite (proj2 (String.eqb_neq _ _) H).
Qed.

Lemma step_lot_absent (data : string) (pos : nat) (r : ParsedRecord) :
  JS.substring data pos (pos + 2) <> "10" -> step_lot data pos r = (r, Normal pos).
Proof.
  intros H. unfold step_lot. now rewrite (proj2 (String.eqb_neq _ _) H).
Qed.

Lemma step_lot_present (data : string) (pos : nat) (r : ParsedRecord) :
  JS.substring data pos (pos + 2) = "10" ->
  step_lot data pos r
  = (mkRecord (raw r) (gtin r) (ndc r) (expirationDateRaw r) (expirationDate r)
       (Some (JS.substring_from data (pos + 2))) (serialNumber r),
     Normal (pos + 2)).
Proof.
  intros H. unfold step_lot. rewrite H. reflexivity.
Qed.

(** The first step either leaves the object alone, or records a GTIN of 14
    code units with its NDC, or records a shorter GTIN and throws. *)
Lemma step_gtin_cases (data : string) (r : ParsedRecord) :
  let g := JS.substring data 2 16 in
  (JS.substring data 0 2 <> "01" /\ step_gtin data 0 r = (r, Normal 0)) \/
  (JS.substring data 0 2 = "01" /\ String.length g = 14 /\
   step_gtin data 0 r
   = (mkRecord (raw r) (Some g) (Some (ndc_of_digits g)) (expirationDateRaw r)
        (expirationDate r) (lotNumber r) (serialNumber r), Normal 16)) \/
  (JS.substring data 0 2 = "01" /\ String.length g <> 14 /\
   step_gtin data 0 r
   = (mkRecord (raw r) (Some g) (ndc r) (expirationDateRaw r)
        (expirationDate r) (lotNumber r) (serialNumber r), Throw InvalidFormat)).
Proof.
  intros g. destruct (String.eqb_spec (JS.substring data 0 2) "01") as [E|E].
  - right. destruct (Nat.eq_dec (String.length g) 14) as [L|L].
    + left. repeat split; trivial.
      unfold step_gtin. change (JS.substring data 0 (0 + 2)) with (JS.substring data 0 2).
      rewrite E. cbn [String.eqb Ascii.eqb Bool.eqb].
      change (JS.substring data (0 + 2) (0 + 2 + 14)) with g.
      unfold bind, set_gtin, lift, set_ndc, ret.
      rewrite (convertGTINtoNDC_14 g L). reflexivity.
    + right. repeat split; trivial.
      unfold step_gtin. change (JS.substring data 0 (0 + 2)) with (JS.substring data 0 2).
      rewrite E. cbn [String.eqb Ascii.eqb Bool.eqb].
      change (JS.substring data (0 + 2) (0 + 2 + 14)) with g.
      unfold bind, set_gtin, lift, set_ndc, ret.
      rewrite (convertGTINtoNDC_short g L). reflexivity.
  - left. split; trivial. now apply step_gtin_absent.
Qed.

Lemma step_expiration_cases (data : string) (pos : nat) (r : ParsedRecord) :
  let e := JS.substring data (pos + 2) (pos + 8) in
  (JS.substring data pos (pos + 2) <> "17" /\
   step_expiration data pos r = (r, Normal pos)) \/
  (JS.substring data pos (pos + 2) = "17" /\
   step_expiration data pos r
   = (mkRecord (raw r) (gtin r) (ndc r) (Some e) (Some (formatExpirationDate e))
        (lotNumber r) (serialNumber r), Normal (pos + 8))).
Proof.
  intros e. destruct (String.eqb_spec (JS.substring data pos (pos + 2)) "17") as [E|E].
  - right. split; trivial. unfold step_expiration. rewrite E.
    cbn [String.eqb Ascii.eqb Bool.eqb].
    replace (pos + 2 + 6) with (pos + 8) by lia. reflexivity.
  - left. split; trivial. now apply step_expiration_absent.
Qed.

Lemma step_lot_cases (data : string) (pos : nat) (r : ParsedRecord) :
  (JS.substring data pos (pos + 2) <> "10" /\ step_lot data pos r = (r, Normal pos)) \/
  (JS.substring data pos (pos + 2) = "10" /\
   step_lot data pos r
   = (mkRecord (raw r) (gtin r) (ndc r) (expirationDateRaw r) (expirationDate r)
        (Some (JS.substring_from data (pos + 2))) (serialNumber r),
      Normal (pos + 2))).
Proof.
  destruct (String.eqb_spec (JS.substring data pos (pos + 2)) "10") as [E|E].
  - right. split; trivial. now apply step_lot_present.
  - left. split; trivial. now apply step_lot_absent.
Qed.

(** Splits a goal about the parser into the cases of its three tests. *)
Ltac parser_cases data :=
  unfold parseGS1DataMatrix, run_parse, parse_body, cursor_at_lot, bind;
  let r0 := fresh "r0" in
  set (r0 := empty_result data);
  destruct (step_gtin_cases data r0) as [[? ->]|[(? & ? & ->)|(? & ? & ->)]];
  [ match goal with
    | |- context [step_expiration data ?p ?r] =>
        destruct (step_expiration_cases data p r) as [[? ->]|[? ->]]
    end;
    match goal with
    | |- context [step_lot data ?p ?r] =>
        destruct (step_lot_cases data p r) as [[? ->]|[? ->]]
    end
  | match goal with
    | |- context [step_expiration data ?p ?r] =>
        destruct (step_expiration_cases data p r) as [[? ->]|[? ->]]
    end;
    match goal with
    | |- context [step_lot data ?p ?r] =>
        destruct (step_lot_cases data p r) as [[? ->]|[? ->]]
    end
  | ];
  subst r0; cbn [fst snd raw gtin ndc expirationDateRaw expirationDate lotNumber
                 serialNumber empty_result].

(** C2.  On the payload 010034928158905817131028100U42275AA the parser
    returns the GTIN 00349281589058, the NDC 49281-5890-58, the raw
    expiration date 131028, the expiration date October 28, 2013 and the lot
    number 0U42275AA. *)
Theorem parse_reference_payload :
  parseGS1DataMatrix "010034928158905817131028100U42275AA"
  = mkRecord "010034928158905817131028100U42275AA"
      (Some "00349281589058") (Some "49281-5890-58")
      (Some "131028") (Some "October 28, 2013")
      (Some "0U42275AA") None.
Proof. vm_compute. reflexivity. Qed.

(** C10.  Whatever the payload, the object the parser returns has no
    serial number: the parser tests for the identifiers 01, 17 and 10 only,
    and a payload that starts with 21 leaves every field but [raw]
    undefined. *)
Theorem serialNumber_never_set :
  (forall data, serialNumber (parseGS1DataMatrix data) = None) /\
  (forall rest,
     parseGS1DataMatrix (String "2" (String "1" rest))
     = empty_result (String "2" (String "1" rest))).
Proof.
  split.
  - intros data. parser_cases data; reflexivity.
  - intros rest. reflexivity.
Qed.

Lemma parse_body_cursor (data : string) (r0 : ParsedRecord) :
  parse_body data r0
  = match cursor_at_lot data r0 with
    | (r, Normal pos) => step_lot data pos r
    | (r, Throw e) => (r, Throw e)
    end.
Proof.
  unfold parse_body, cursor_at_lot, bind.
  destruct (step_gtin data 0 r0) as [r1 [p1|e1]]; [|reflexivity].
  destruct (step_expiration data p1 r1) as [r2 [p2|e2]]; reflexivity.
Qed.

Lemma identifier_fits (data : string) (pos : nat) (ai : string) :
  String.length ai = 2 -> JS.substring data pos (pos + 2) = ai ->
  pos + 2 <= String.length data.
Proof.
  intros L H. apply (f_equal String.length) in H.
  rewrite length_JS_substring, L in H; lia.
Qed.

(** C7.  When the two steps before it complete and leave the cursor on the
    identifier 10, the lot number is the whole of the payload after the
    identifier, the payload being what precedes the cursor, then 10, then the
    lot number; every other field is as it was when the cursor arrived, and
    the parser ends there with the cursor right after the identifier. *)
Theorem lot_takes_the_rest (data : string) (r : ParsedRecord) (pos : nat) :
  cursor_at_lot data (empty_result data) = (r, Normal pos) ->
  JS.substring data pos (pos + 2) = "10" ->
  let lot := JS.substring_from data (pos + 2) in
  lotNumber (parseGS1DataMatrix data) = Some lot /\
  data = JS.substring data 0 pos ++ "10" ++ lot /\
  String.length lot = String.length data - (pos + 2) /\
  parse_body data (empty_result data)
  = (mkRecord (raw r) (gtin r) (ndc r) (expirationDateRaw r) (expirationDate r)
       (Some lot) (serialNumber r), Normal (pos + 2)).
Proof.
  intros Hc H10 lot.
  assert (Hb : parse_body data (empty_result data)
               = (mkRecord (raw r) (gtin r) (ndc r) (expirationDateRaw r)
                    (expirationDate r) (Some lot) (serialNumber r),
                  Normal (pos + 2))).
  { rewrite parse_body_cursor, Hc. now apply step_lot_present. }
  repeat split.
  - unfold parseGS1DataMatrix, run_parse. rewrite Hb. reflexivity.
  - rewrite <- H10. apply JS_substring_split. lia.
  - pose proof (identifier_fits data pos "10" eq_refl H10) as Hfit.
    unfold lot, JS.substring_from. rewrite length_JS_substring; lia.
  - exact Hb.
Qed.

Lemma lot_takes_the_rest_witness :
  lotNumber (parseGS1DataMatrix "010034928158905817131028100U42275AA121")
  = Some "0U42275AA121".
Proof.
  exact (proj1 (lot_takes_the_rest "010034928158905817131028100U42275AA121"
                  (mkRecord "010034928158905817131028100U42275AA121"
                     (Some "00349281589058") (Some "49281-5890-58")
                     (Some "131028") (Some "October 28, 2013") None None)
                  24 eq_refl eq_refl)).
Defined.

(** C5, as the parser has it.  A GTIN shorter than 14 code units is
    recorded all the same. *)
Lemma short_gtin_is_recorded :
  gtin (parseGS1DataMatrix "0112345") = Some "12345" /\
  String.length "12345" <> 14 /\
  expirationDateRaw (parseGS1DataMatrix "1712") = Some "12".
Proof. repeat split. discriminate. Qed.

(** C5, amended.  The GTIN, when present, is the at most 14 code units that
    follow a leading 01, whatever they are; it has 14 of them exactly when
    the NDC is present too, and otherwise nothing else is recorded.  The raw
    expiration date, when present, has at most 6 code units, and when it has
    fewer the expiration date is that same string.  No field is skipped for
    want of code units: a leading 01 always records a GTIN, which is the
    whole remainder, alone in the object, when the payload has fewer than 16
    code units, and without a leading 01 there is no GTIN; a 17 under the
    cursor (at 0 without a leading 01, at 16 after a GTIN of 14) always
    records the raw expiration date and the expiration date, which are both
    the whole remainder when fewer than 6 code units follow the 17, and
    without a 17 there neither is recorded. *)
Theorem fixed_fields_shape (data : string) :
  (forall g, gtin (parseGS1DataMatrix data) = Some g ->
     JS.substring data 0 2 = "01" /\
     g = JS.substring data 2 16 /\
     String.length g = Nat.min 14 (String.length data - 2) /\
     (String.length g = 14 -> ndc (parseGS1DataMatrix data) = Some (ndc_of_digits g)) /\
     (String.length g <> 14 ->
        parseGS1DataMatrix data = mkRecord data (Some g) None None None None None)) /\
  (forall n, ndc (parseGS1DataMatrix data) = Some n ->
     exists g, gtin (parseGS1DataMatrix data) = Some g /\ String.length g = 14) /\
  (forall e, expirationDateRaw (parseGS1DataMatrix data) = Some e ->
     String.length e <= 6 /\
     (String.length e <> 6 -> expirationDate (parseGS1DataMatrix data) = Some e)) /\
  (JS.substring data 0 2 = "01" ->
     gtin (parseGS1DataMatrix data) = Some (JS.substring data 2 16) /\
     (String.length data < 16 ->
        JS.substring data 2 16 = JS.substring_from data 2 /\
        String.length (JS.substring_from data 2) = String.length data - 2 /\
        parseGS1DataMatrix data
        = mkRecord data (Some (JS.substring_from data 2)) None None None None None)) /\
  (JS.substring data 0 2 <> "01" -> gtin (parseGS1DataMatrix data) = None) /\
  (forall pos,
     pos = 0 /\ JS.substring data 0 2 <> "01" \/
     pos = 16 /\ JS.substring data 0 2 = "01" /\ 16 <= String.length data ->
     JS.substring data pos (pos + 2) = "17" ->
     let e := JS.substring data (pos + 2) (pos + 8) in
     expirationDateRaw (parseGS1DataMatrix data) = Some e /\
     expirationDate (parseGS1DataMatrix data) = Some (formatExpirationDate e) /\
     (String.length data < pos + 8 ->
        e = JS.substring_from data (pos + 2) /\
        String.length e = String.length data - (pos + 2) /\
        expirationDate (parseGS1DataMatrix data) = Some e)) /\
  (forall pos,
     pos = 0 /\ JS.substring data 0 2 <> "01" \/
     pos = 16 /\ JS.substring data 0 2 = "01" ->
     JS.substring data pos (pos + 2) <> "17" ->
     expirationDateRaw (parseGS1DataMatrix data) = None /\
     expirationDate (parseGS1DataMatrix data) = None).
Proof.
  assert (Hlen : JS.substring data 0 2 = "01" ->
                 String.length (JS.substring data 2 16)
                 = Nat.min 14 (String.length data - 2)).
  { intros H. pose proof (identifier_fits data 0 "01" eq_refl H).
    rewrite length_JS_substring; lia. }
  assert (Hexp : forall a b, a <= b -> b <= a + 6 ->
                 String.length (JS.substring data a b) <= 6).
  { intros a b Ha Hb. rewrite length_JS_substring; lia. }
  assert (Hfmt : forall e, String.length e <> 6 -> formatExpirationDate e = e).
  { intros e H. unfold formatExpirationDate.
    rewrite (proj2 (Nat.eqb_neq _ _) H). now rewrite orb_true_r. }
  assert (Hrest : forall a b, String.length data < b ->
                  JS.substring data a b = JS.substring_from data a).
  { intros a b H. unfold JS.substring_from, JS.substring.
    rewrite (Nat.min_r b (String.length data)) by lia.
    now rewrite Nat.min_id. }
  split; [|split; [|split; [|split; [|split; [|split]]]]].
  - intros g. parser_cases data; intros [= <-] || discriminate;
      (split; [assumption|]); (split; [reflexivity|]); (split; [auto|]);
      split; intros; try reflexivity; congruence.
  - intros n. parser_cases data; intros [= <-] || discriminate; eauto.
  - intros e. parser_cases data; intros [= <-] || discriminate;
      (split; [apply Hexp; lia|]); intros; f_equal; now apply Hfmt.
  - intros H01. pose proof (Hlen H01) as L.
    pose proof (identifier_fits data 0 "01" eq_refl H01) as Hfit.
    split.
    + parser_cases data; reflexivity || contradiction.
    + intros Hshort. rewrite <- (Hrest 2 16 Hshort).
      split; [reflexivity|]. split; [lia|].
      parser_cases data; reflexivity || contradiction || lia.
  - intros H01. parser_cases data; reflexivity || contradiction.
  - intros pos Hpos H17 e.
    pose proof (identifier_fits data pos "17" eq_refl H17) as Hfit.
    assert (Hshort : String.length data < pos + 8 ->
                     e = JS.substring_from data (pos + 2) /\
                     String.length e = String.length data - (pos + 2) /\
                     formatExpirationDate e = e).
    { intros Hs. unfold e. rewrite (Hrest _ _ Hs).
      assert (Hl : String.length (JS.substring_from data (pos + 2))
                   = String.length data - (pos + 2))
        by (unfold JS.substring_from; rewrite length_JS_substring; lia).
      split; [reflexivity|]. split; [exact Hl|]. apply Hfmt. lia. }
    assert (Hgo : expirationDateRaw (parseGS1DataMatrix data) = Some e /\
                  expirationDate (parseGS1DataMatrix data)
                  = Some (formatExpirationDate e)).
    { subst e. destruct Hpos as [[-> H01]|(-> & H01 & H16)].
      - parser_cases data; (split; reflexivity) || contradiction.
      - pose proof (Hlen H01) as L.
        parser_cases data; (split; reflexivity) || contradiction || lia. }
    destruct Hgo as [Hraw Hdate]. split; [exact Hraw|]. split; [exact Hdate|].
    intros Hs. destruct (Hshort Hs) as (E1 & E2 & E3).
    split; [exact E1|]. split; [exact E2|]. now rewrite Hdate, E3.
  - intros pos [[-> H01]|[-> H01]] H17;
      parser_cases data; (split; reflexivity) || contradiction.
Qed.

Lemma fixed_fields_shape_witness :
  JS.substring "0112345" 0 2 = "01" /\
  parseGS1DataMatrix "0112345"
  = mkRecord "0112345" (Some "12345") None None None None None /\
  expirationDateRaw (parseGS1DataMatrix "1712") = Some "12" /\
  expirationDate (parseGS1DataMatrix "1712") = Some "12".
Proof.
  destruct (proj1 (fixed_fields_shape "0112345") "12345" eq_refl)
    as (H1 & _ & _ & _ & _).
  destruct (fixed_fields_shape "0112345") as (_ & _ & _ & H4 & _ & _ & _).
  destruct (H4 eq_refl) as [_ Hshort].
  destruct Hshort as (_ & _ & Hrecord); [simpl; lia|].
  destruct (fixed_fields_shape "1712") as (_ & _ & _ & _ & _ & H6 & _).
  assert (Hpos : 0 = 0 /\ JS.substring "1712" 0 2 <> "01" \/
                 0 = 16 /\ JS.substring "1712" 0 2 = "01" /\
                 16 <= String.length "1712")
    by (left; split; [reflexivity|discriminate]).
  destruct (H6 0 Hpos eq_refl) as (Hraw & _ & Hs).
  destruct Hs as (_ & _ & Hdate); [simpl; lia|].
  repeat split; assumption.
Defined.

(** C9.  The parser returns the object its body has built, whether the body
    completed or threw, and the object holds the payload as [raw].  A step
    that does not find its identifier at the cursor leaves the object and the
    cursor as they are and completes.  The body throws only the error of the
    converter, and then the object returned holds the payload and the GTIN
    that was read before the throw. *)
Theorem parse_never_raises :
  (forall data,
     parseGS1DataMatrix data = fst (parse_body data (empty_result data)) /\
     raw (parseGS1DataMatrix data) = data) /\
  (forall data pos r,
     JS.substring data pos (pos + 2) <> "01" ->
     step_gtin data pos r = (r, Normal pos)) /\
  (forall data pos r,
     JS.substring data pos (pos + 2) <> "17" ->
     step_expiration data pos r = (r, Normal pos)) /\
  (forall data pos r,
     JS.substring data pos (pos + 2) <> "10" ->
     step_lot data pos r = (r, Normal pos)) /\
  (forall data r e,
     parse_body data (empty_result data) = (r, Throw e) ->
     e = InvalidFormat /\
     run_parse data = (r, [e]) /\
     r = mkRecord data (Some (JS.substring data 2 16)) None None None None None).
Proof.
  split; [|split; [|split; [|split]]].
  - intros data. split.
    + unfold parseGS1DataMatrix, run_parse.
      destruct (parse_body data (empty_result data)) as [r [p|e]]; reflexivity.
    + parser_cases data; reflexivity.
  - exact step_gtin_absent.
  - exact step_expiration_absent.
  - exact step_lot_absent.
  - intros data r e. unfold run_parse.
    unfold parse_body, bind. set (r0 := empty_result data).
    destruct (step_gtin_cases data r0) as [[? ->]|[(? & ? & ->)|(? & ? & ->)]].
    + destruct (step_expiration_cases data 0 r0) as [[? ->]|[? ->]];
        match goal with
        | |- context [step_lot data ?p ?r] =>
            destruct (step_lot_cases data p r) as [[? ->]|[? ->]]
        end; discriminate.
    + match goal with
      | |- context [step_expiration data ?p ?r] =>
          destruct (step_expiration_cases data p r) as [[? ->]|[? ->]]
      end;
        match goal with
        | |- context [step_lot data ?p ?r] =>
            destruct (step_lot_cases data p r) as [[? ->]|[? ->]]
        end; discriminate.
    + intros [= <- <-]. repeat split.
Qed.

Lemma parse_never_raises_witness :
  step_expiration "10LOT" 0 (GS1.empty_result "10LOT")
  = (GS1.empty_result "10LOT", Normal 0) /\
  run_parse "0112345"
  = (mkRecord "0112345" (Some "12345") None None None None None, [InvalidFormat]).
Proof.
  destruct parse_never_raises as (_ & _ & H17 & _ & Hthrow).
  split.
  - apply H17. discriminate.
  - destruct (Hthrow "0112345"
                (mkRecord "0112345" (Some "12345") None None None None None)
                InvalidFormat eq_refl) as (_ & H & _).
    exact H.
Defined.

End Parser.

(** ** The expiration date *)

Section Expiration.

Import GS1.

Lemma forallb_below (f : nat -> bool) (n : nat) :
  forallb f (seq 0 n) = true -> forall k, k < n -> f k = true.
Proof.
  intros H k Hk. rewrite forallb_forall in H. apply H. apply in_seq. lia.
Qed.

Lemma year_of_two_digits (yy : nat) (mmdd : string) :
  JS.substring (two_digits yy ++ mmdd) 0 2 = two_digits yy.
Proof.
  unfold two_digits. generalize (digit (yy / 10)) (digit (yy mod 10)).
  intros c1 c2. unfold JS.substring. simpl. now destruct mmdd.
Qed.

Lemma option_Z_eqb_eq (a : option Z) (b : Z) :
  match a with Some z => Z.eqb z b | None => false end = true -> a = Some b.
Proof.
  destruct a as [z|]; [|discriminate]. intros H. f_equal. now apply Z.eqb_eq.
Qed.

Lemma fullYear_two_digits (yy : nat) :
  yy <= 99 ->
  fullYear (JS.parseInt (two_digits yy))
  = Some (if (yy <=? 30)%nat then 2000 + Z.of_nat yy else 1900 + Z.of_nat yy)%Z.
Proof.
  intros H. apply option_Z_eqb_eq.
  apply (forallb_below
           (fun yy => match fullYear (JS.parseInt (two_digits yy)) with
                      | Some z =>
                          Z.eqb z (if (yy <=? 30)%nat then 2000 + Z.of_nat yy
                                   else 1900 + Z.of_nat yy)%Z
                      | None => false
                      end) 100); [vm_compute; reflexivity | lia].
Qed.

(** The first day of every month of every two-digit year is printed with
    the resolved year. *)
Lemma formatExpirationDate_first_of_month (yy m : nat) :
  yy <= 99 -> 1 <= m <= 12 ->
  formatExpirationDate (two_digits yy ++ two_digits m ++ "01")
  = (JS.month_name (Z.of_nat m - 1) ++ " 1, "
       ++ JS.show_Z (if (yy <=? 30)%nat then 2000 + Z.of_nat yy else 1900 + Z.of_nat yy)%Z).
Proof.
  intros Hy Hm. apply String.eqb_eq.
  pose (f := fun yy m =>
    String.eqb
      (formatExpirationDate (two_digits yy ++ two_digits m ++ "01"))
      (JS.month_name (Z.of_nat m - 1) ++ " 1, "
         ++ JS.show_Z (if (yy <=? 30)%nat then 2000 + Z.of_nat yy
                       else 1900 + Z.of_nat yy)%Z)).
  assert (H : forallb (fun yy : nat => forallb (fun m : nat =>
                Nat.eqb m 0 || f yy m) (seq 0 13)) (seq 0 100) = true)
    by (vm_compute; reflexivity).
  pose proof (forallb_below _ _ H yy ltac:(lia)) as H1. cbv beta in H1.
  pose proof (forallb_below _ _ H1 m ltac:(lia)) as H2. cbv beta in H2.
  destruct m; [lia|]. exact H2.
Qed.

(** C6.  A two-digit year from 00 to 30 resolves to the year 2000 to 2030
    and one from 31 to 99 to the year 1931 to 1999; the first of January of
    every two-digit year is printed with the resolved year, and so 300101
    with 2030 and 310101 with 1931. *)
Theorem century_window :
  (forall yy mmdd, yy <= 30 ->
     fullYear (JS.parseInt (JS.substring (two_digits yy ++ mmdd) 0 2))
     = Some (2000 + Z.of_nat yy)%Z) /\
  (forall yy mmdd, 31 <= yy <= 99 ->
     fullYear (JS.parseInt (JS.substring (two_digits yy ++ mmdd) 0 2))
     = Some (1900 + Z.of_nat yy)%Z) /\
  (forall yy, yy <= 30 ->
     formatExpirationDate (two_digits yy ++ "0101")
     = "January 1, " ++ JS.show_Z (2000 + Z.of_nat yy)) /\
  (forall yy, 31 <= yy <= 99 ->
     formatExpirationDate (two_digits yy ++ "0101")
     = "January 1, " ++ JS.show_Z (1900 + Z.of_nat yy)) /\
  formatExpirationDate "300101" = "January 1, 2030" /\
  formatExpirationDate "310101" = "January 1, 1931".
Proof.
  repeat split.
  - intros yy mmdd H. rewrite year_of_two_digits, fullYear_two_digits by lia.
    now rewrite (proj2 (Nat.leb_le yy 30) H).
  - intros yy mmdd H. rewrite year_of_two_digits, fullYear_two_digits by lia.
    now rewrite (proj2 (Nat.leb_gt yy 30)) by lia.
  - intros yy H.
    pose proof (formatExpirationDate_first_of_month yy 1) as E.
    rewrite (proj2 (Nat.leb_le yy 30) H) in E. apply E; lia.
  - intros yy H.
    pose proof (formatExpirationDate_first_of_month yy 1) as E.
    rewrite (proj2 (Nat.leb_gt yy 30)) in E by lia. apply E; lia.
Qed.

Lemma century_window_witness :
  fullYear (JS.parseInt (JS.substring "131028" 0 2)) = Some 2013%Z /\
  fullYear (JS.parseInt (JS.substring "991231" 0 2)) = Some 1999%Z /\
  formatExpirationDate "000101" = "January 1, 2000".
Proof.
  destruct century_window as (H1 & H2 & H3 & _).
  split; [|split].
  - apply (H1 13 "1028"). lia.
  - apply (H2 99 "1231"). lia.
  - apply (H3 0). lia.
Defined.

End Expiration.

(** ** The decode cascade *)

Section Cascade.

Import Decode.
Local Open Scope list_scope.

Variable Buffer : Type.
Variable sharp : list filter -> completion Buffer.
Variable readBarcodes :
  Buffer -> option ReaderOptions -> completion (option (list ReadResult)).
Variable readFile : completion Buffer.

Local Abbreviation run := (Decode.run sharp readBarcodes readFile).
Local Abbreviation outcome := (Decode.outcome sharp readBarcodes readFile).
Local Abbreviation events_of := (Decode.events_of sharp readFile).
Local Abbreviation cascade := (Decode.cascade sharp readBarcodes readFile).
Local Abbreviation part := (Decode.part sharp readBarcodes readFile).
Local Abbreviation IO := (Decode.IO Buffer).
Local Abbreviation trace := (Decode.trace Buffer).

(** *** The script is the cascade over the fixed list *)

Lemma catch_part (a : attempt) (k : IO unit) (h : exn -> IO unit) (tr : trace) :
  try_catch Buffer (part a k) h tr
  = match outcome a with
    | Raised e => h e (tr ++ events_of a)
    | NoResult => try_catch Buffer k h (tr ++ events_of a)
    | Valid t => ((tr ++ events_of a) ++ [console_log t], Exited 0)
    end.
Proof.
  unfold try_catch, Decode.part, Decode.outcome, Decode.events_of, bind,
    await_readBarcodes, await, log_and_exit, emit, process_exit, ret.
  destruct (source sharp readFile a) as [b|e]; [|reflexivity].
  rewrite <- app_assoc. cbn [app].
  destruct (readBarcodes b (options a)) as [rs|e]; [|reflexivity].
  destruct (accept a rs) as [t|]; reflexivity.
Qed.

Lemma catch_loop_step (angle : Z) (angles : list Z) (k : IO unit)
                      (h : exn -> IO unit) (tr : trace) :
  let body := fun angle : Z =>
    bind Buffer
      (await_sharp Buffer sharp
         [median 3; linear 16 (-30); sharpen None; rotate angle; png])
      (fun rotatedBuffer =>
         bind Buffer (await_readBarcodes Buffer readBarcodes rotatedBuffer dataMatrixOptions)
           (fun rotatedResults => log_and_exit Buffer (first_valid rotatedResults))) in
  try_catch Buffer (bind Buffer (for_of Buffer (angle :: angles) body) (fun _ => k)) h tr
  = try_catch Buffer
      (part (rotated angle) (bind Buffer (for_of Buffer angles body) (fun _ => k))) h tr.
Proof.
  intros body. subst body.
  cbv [try_catch Decode.part for_of bind await_sharp await_readBarcodes await
       log_and_exit emit process_exit ret source source_event recipe options accept].
  destruct (sharp [median 3; linear 16 (-30); sharpen None; rotate angle; png])
    as [b|e]; [|reflexivity].
  destruct (readBarcodes b dataMatrixOptions) as [rs|e]; [|reflexivity].
  destruct (first_valid rs) as [t|]; reflexivity.
Qed.

Theorem pipeline_cascade : run = cascade attempts [].
Proof.
  unfold Decode.run, pipeline.
  change (try_block sharp readBarcodes readFile)
    with (part standard (part enhanced
            (bind Buffer
               (for_of Buffer [90; 180; 270]%Z (fun angle : Z =>
                  bind Buffer
                    (await_sharp Buffer sharp
                       [median 3; linear 16 (-30); sharpen None; rotate angle; png])
                    (fun rotatedBuffer =>
                       bind Buffer
                         (await_readBarcodes Buffer readBarcodes rotatedBuffer
                            dataMatrixOptions)
                         (fun rotatedResults =>
                            log_and_exit Buffer (first_valid rotatedResults)))))
               (fun _ => part original
                  (bind Buffer (emit Buffer (console_error "Decode failed"))
                     (fun _ => process_exit Buffer 2)))))).
  unfold attempts. cbn [Decode.cascade].
  rewrite catch_part. destruct (outcome standard); [reflexivity| |reflexivity].
  rewrite catch_part. destruct (outcome enhanced); [reflexivity| |reflexivity].
  rewrite catch_loop_step, catch_part.
  destruct (outcome (rotated 90)); [reflexivity| |reflexivity].
  rewrite catch_loop_step, catch_part.
  destruct (outcome (rotated 180)); [reflexivity| |reflexivity].
  rewrite catch_loop_step, catch_part.
  destruct (outcome (rotated 270)); [reflexivity| |reflexivity].
  change (for_of Buffer [] ?f) with (ret Buffer tt).
  match goal with
  | |- try_catch _ (bind _ (ret _ tt) (fun _ => ?k)) ?h ?tr = _ =>
      change (try_catch Buffer (bind Buffer (ret Buffer tt) (fun _ => k)) h tr)
        with (try_catch Buffer k h tr)
  end.
  rewrite catch_part. destruct (outcome original); reflexivity.
Qed.

(** *** Reading a trace *)

Lemma started_app (t1 t2 : trace) : started (t1 ++ t2) = started t1 ++ started t2.
Proof.
  induction t1 as [|ev t1 IH]; simpl; [reflexivity|].
  destruct (begins ev); simpl; now rewrite IH.
Qed.

Lemma stdout_app (t1 t2 : trace) : stdout (t1 ++ t2) = stdout t1 ++ stdout t2.
Proof.
  induction t1 as [|ev t1 IH]; simpl; [reflexivity|].
  destruct ev; simpl; now rewrite IH.
Qed.

Lemma stderr_app (t1 t2 : trace) : stderr (t1 ++ t2) = stderr t1 ++ stderr t2.
Proof.
  induction t1 as [|ev t1 IH]; simpl; [reflexivity|].
  destruct ev; simpl; now rewrite IH.
Qed.

Lemma events_of_read (a : attempt) :
  In a attempts ->
  started (events_of a) = [a] /\ stdout (events_of a) = [] /\ stderr (events_of a) = [].
Proof.
  intros H. unfold Decode.events_of.
  assert (Hb : begins (@source_event Buffer a) = Some a).
  { unfold attempts in H. simpl in H.
    repeat (destruct H as [<-|H]; [reflexivity|]). contradiction. }
  cbn [started]. rewrite Hb.
  destruct (source sharp readFile a); destruct a; repeat split.
Qed.

Lemma events_of_all_read (l : list attempt) :
  incl l attempts ->
  started (flat_map events_of l) = l /\
  stdout (flat_map events_of l) = [] /\
  stderr (flat_map events_of l) = [].
Proof.
  induction l as [|a l IH]; intros Hl; [repeat split|].
  destruct (events_of_read a (Hl a (or_introl eq_refl))) as (E1 & E2 & E3).
  destruct IH as (I1 & I2 & I3); [intros x Hx; apply Hl; now right|].
  cbn [flat_map]. rewrite started_app, stdout_app, stderr_app.
  rewrite E1, E2, E3, I1, I2, I3. repeat split.
Qed.

(** *** The cascade over a list *)

Lemma cascade_skips (pre rest : list attempt) : forall tr,
  Forall (fun b => outcome b = NoResult) pre ->
  cascade (pre ++ rest) tr = cascade rest (tr ++ flat_map events_of pre).
Proof.
  induction pre as [|a pre IH]; intros tr H.
  - simpl. now rewrite app_nil_r.
  - inversion H as [|? ? Ha Hpre]; subst. cbn [app Decode.cascade flat_map].
    rewrite Ha, IH by assumption. now rewrite <- app_assoc.
Qed.

Lemma cascade_in_order (todo : list attempt) : forall tr,
  incl todo attempts ->
  exists n, started (fst (cascade todo tr)) = started tr ++ firstn n todo.
Proof.
  induction todo as [|a todo IH]; intros tr Hl.
  - exists 0. cbn [Decode.cascade fst firstn]. rewrite started_app. reflexivity.
  - destruct (events_of_read a (Hl a (or_introl eq_refl))) as (E1 & _).
    cbn [Decode.cascade]. destruct (outcome a) as [e| |t].
    + exists 1. cbn [fst firstn]. rewrite !started_app, E1. cbn.
      now rewrite app_nil_r.
    + destruct (IH (tr ++ events_of a)) as [n Hn]; [intros x Hx; apply Hl; now right|].
      exists (S n). rewrite Hn, started_app, E1, <- app_assoc. reflexivity.
    + exists 1. cbn [fst firstn]. rewrite !started_app, E1. cbn.
      now rewrite app_nil_r.
Qed.

Lemma split_incl (pre post : list attempt) (a : attempt) :
  attempts = pre ++ a :: post -> incl pre attempts /\ In a attempts.
Proof.
  intros ->. split.
  - intros x Hx. apply in_or_app. now left.
  - apply in_or_app. right. now left.
Qed.

Lemma earlier_strategy (pre post : list attempt) (a : attempt) :
  attempts = pre ++ a :: post ->
  forall b, In b (pre ++ [a]) -> strategy b <= strategy a.
Proof.
  intros H b Hb. unfold attempts in H.
  do 6 (destruct pre as [|? pre];
        [ injection H as <- <-; simpl in Hb;
          repeat (destruct Hb as [<-|Hb]; [simpl; lia|]); contradiction
        | injection H as <- H ]).
  destruct pre; discriminate H.
Qed.

Lemma later_not_earlier (pre post : list attempt) (a : attempt) :
  attempts = pre ++ a :: post ->
  forall b, In b post -> ~ In b (pre ++ [a]).
Proof.
  intros H b Hb Hb'. unfold attempts in H.
  do 6 (destruct pre as [|? pre];
        [ injection H as <- <-; simpl in Hb, Hb';
          repeat (destruct Hb as [<-|Hb];
                  [repeat (destruct Hb' as [Hb'|Hb']; [discriminate Hb'|]);
                   contradiction|]);
          contradiction
        | injection H as <- H ]).
  destruct pre; discriminate H.
Qed.

(** The run up to the attempt [a], when every attempt before it completes
    without an accepted result. *)
Lemma run_reaches (pre post : list attempt) (a : attempt) :
  attempts = pre ++ a :: post ->
  Forall (fun b => outcome b = NoResult) pre ->
  run = cascade (a :: post) (flat_map events_of pre) /\
  started (flat_map events_of pre ++ events_of a) = pre ++ [a] /\
  stdout (flat_map events_of pre ++ events_of a) = [] /\
  stderr (flat_map events_of pre ++ events_of a) = [].
Proof.
  intros H Hpre. destruct (split_incl pre post a H) as [Hincl Ha].
  destruct (events_of_all_read pre Hincl) as (P1 & P2 & P3).
  destruct (events_of_read a Ha) as (A1 & A2 & A3).
  split.
  - rewrite pipeline_cascade, H. now rewrite cascade_skips.
  - rewrite started_app, stdout_app, stderr_app, P1, P2, P3, A1, A2, A3.
    repeat split.
Qed.

(** C1, amended.  The attempts a run begins are a first part of the fixed
    list: the standard recipe, the enhanced recipe, the standard recipe
    rotated by 90, 180 and 270 degrees, the original bytes.  When every
    attempt before [a] completes without an accepted result and [a] yields a
    valid decode, the run prints the text of that decode and nothing else,
    exits with code 0, has begun the attempts up to [a] and no other, and so
    none of a later strategy.  A decode is accepted by the first two
    strategies when it is the first result and is valid, by the other two
    when it is the first valid result. *)
Theorem first_valid_decode_wins :
  (exists n, started (fst run) = firstn n attempts) /\
  (forall pre a post t,
     attempts = pre ++ a :: post ->
     Forall (fun b => outcome b = NoResult) pre ->
     outcome a = Valid t ->
     snd run = Exited 0 /\
     stdout (fst run) = [t] /\
     stderr (fst run) = [] /\
     started (fst run) = pre ++ [a] /\
     (forall b, strategy a < strategy b -> ~ In b (started (fst run)))).
Proof.
  split.
  - rewrite pipeline_cascade.
    destruct (cascade_in_order attempts [] (fun x Hx => Hx)) as [n Hn].
    exists n. exact Hn.
  - intros pre a post t H Hpre Ha.
    destruct (run_reaches pre post a H Hpre) as (-> & S1 & S2 & S3).
    cbn [Decode.cascade]. rewrite Ha. cbn [fst snd].
    rewrite started_app, stdout_app, stderr_app, S1, S2, S3. cbn.
    rewrite app_nil_r. repeat split.
    intros b Hlt Hb. pose proof (earlier_strategy pre post a H b Hb). lia.
Qed.

(** C4, amended.  No error is caught per attempt.  When every attempt
    before [a] completes without an accepted result and a capability of [a]
    throws, whether in preprocessing, in reading the file or in decoding, the
    one handler of the script reports a processing error with the message of
    the error and exits with code 2; nothing is printed and no later attempt
    begins. *)
Theorem error_aborts_the_run (pre post : list attempt) (a : attempt) (e : exn) :
  attempts = pre ++ a :: post ->
  Forall (fun b => outcome b = NoResult) pre ->
  outcome a = Raised e ->
  snd run = Exited 2 /\
  stderr (fst run) = [("Processing error: " ++ message e)%string] /\
  stdout (fst run) = [] /\
  started (fst run) = pre ++ [a] /\
  (forall b, In b post -> ~ In b (started (fst run))).
Proof.
  intros H Hpre Ha.
  destruct (run_reaches pre post a H Hpre) as (-> & S1 & S2 & S3).
  cbn [Decode.cascade]. rewrite Ha. cbn [fst snd].
  rewrite started_app, stdout_app, stderr_app, S1, S2, S3. cbn.
  rewrite app_nil_r. repeat split.
  intros b Hb. now apply (later_not_earlier pre post a H).
Qed.

(** C8, amended.  When every attempt completes without an accepted result,
    the run reports the decode failure on the error stream and exits with
    code 2; nothing is printed, all the attempts have begun in the fixed
    order, and the last of them is the one on the original bytes. *)
Theorem decode_failure_after_all (H : Forall (fun b => outcome b = NoResult) attempts) :
  snd run = Exited 2 /\
  exit_code run = Some 2%Z /\
  stderr (fst run) = ["Decode failed"] /\
  stdout (fst run) = [] /\
  started (fst run) = attempts /\
  last (started (fst run)) standard = original.
Proof.
  destruct (events_of_all_read attempts (fun x Hx => Hx)) as (P1 & P2 & P3).
  assert (E : run = (flat_map events_of attempts ++ [console_error "Decode failed"],
                     Exited 2%Z)).
  { rewrite pipeline_cascade.
    rewrite <- (app_nil_r attempts) at 1. now rewrite cascade_skips. }
  unfold exit_code. rewrite E. cbn [fst snd].
  rewrite started_app, stdout_app, stderr_app, P1, P2, P3. cbn.
  repeat split.
Qed.

End Cascade.

(** *** Runs on concrete images *)

Section Runs.

Import Decode.
Local Open Scope list_scope.

Lemma first_valid_decode_wins_witness :
  stdout (fst (run Scenario.sharp Scenario.engine_reads_at_90 Scenario.readFile))
  = ["0100349281589058"] /\
  started (fst (run Scenario.sharp Scenario.engine_reads_at_90 Scenario.readFile))
  = [standard; enhanced; rotated 90].
Proof.
  destruct (proj2 (first_valid_decode_wins Scenario.Buffer Scenario.sharp
                     Scenario.engine_reads_at_90 Scenario.readFile)
              [standard; enhanced] (rotated 90) [rotated 180; rotated 270; original]
              "0100349281589058")
    as (_ & H1 & _ & H2 & _).
  - reflexivity.
  - repeat (apply Forall_cons; [reflexivity|]). apply Forall_nil.
  - reflexivity.
  - split; [exact H1 | exact H2].
Defined.

(** C1, as stated.  The decode engine throws on the standard buffer and the
    enhanced recipe would yield a valid decode: strategy 2 is the first to
    yield one, and the run prints nothing and ends with a processing error. *)
Lemma error_hides_valid_decode :
  map (outcome Scenario.sharp Scenario.engine_raises_on_standard Scenario.readFile)
      attempts
  = [Raised (Error "decode engine exception");
     Valid "010034928158905817131028100U42275AA";
     Valid "010034928158905817131028100U42275AA";
     Valid "010034928158905817131028100U42275AA";
     Valid "010034928158905817131028100U42275AA";
     Valid "010034928158905817131028100U42275AA"] /\
  run Scenario.sharp Scenario.engine_raises_on_standard Scenario.readFile
  = ([sharp_toBuffer (recipe standard);
      readBarcodes_call (recipe standard) dataMatrixOptions;
      console_error "Processing error: decode engine exception"],
     Exited 2%Z).
Proof. split; reflexivity. Qed.

Lemma error_aborts_the_run_witness :
  stderr (fst (run Scenario.sharp Scenario.engine_raises_on_rotated_180
                 Scenario.readFile))
  = ["Processing error: decode engine exception"] /\
  started (fst (run Scenario.sharp Scenario.engine_raises_on_rotated_180
                  Scenario.readFile))
  = [standard; enhanced; rotated 90; rotated 180].
Proof.
  destruct (error_aborts_the_run Scenario.Buffer Scenario.sharp
              Scenario.engine_raises_on_rotated_180 Scenario.readFile
              [standard; enhanced; rotated 90] [rotated 270; original] (rotated 180)
              (Error "decode engine exception"))
    as (_ & H1 & _ & H2 & _).
  - reflexivity.
  - repeat (apply Forall_cons; [reflexivity|]). apply Forall_nil.
  - reflexivity.
  - split; [exact H1 | exact H2].
Defined.

(** C4, as stated.  The decode engine throws on the buffer rotated by 180
    degrees; the attempt is not followed by the one at 270 degrees, and the
    run ends with a processing error. *)
Lemma decode_error_is_not_swallowed :
  ~ recovers_per_attempt Scenario.sharp Scenario.engine_raises_on_rotated_180
      Scenario.readFile.
Proof.
  intros H.
  specialize (H [standard; enhanced; rotated 90] (rotated 180) (rotated 270)
                [original] (Error "decode engine exception") eq_refl).
  vm_compute in H.
  destruct H as [H|[H|[H|[H|[]]]]]; auto; discriminate H.
Qed.

Lemma decode_failure_after_all_witness :
  stderr (fst (run Scenario.sharp Scenario.engine_reads_nothing Scenario.readFile))
  = ["Decode failed"] /\
  last (started (fst (run Scenario.sharp Scenario.engine_reads_nothing
                        Scenario.readFile))) standard
  = original.
Proof.
  destruct (decode_failure_after_all Scenario.Buffer Scenario.sharp
              Scenario.engine_reads_nothing Scenario.readFile)
    as (_ & _ & H1 & _ & _ & H2).
  - repeat (apply Forall_cons; [reflexivity|]). apply Forall_nil.
  - split; [exact H1 | exact H2].
Defined.

(** C8, as stated.  The decode engine throws on the enhanced buffer and no
    attempt yields a valid decode; the run reports a processing error, not
    the decode failure, and the original bytes are never tried. *)
Lemma error_skips_the_fallback :
  map (outcome Scenario.sharp Scenario.engine_raises_on_enhanced Scenario.readFile)
      attempts
  = [NoResult; Raised (Error "decode engine exception");
     NoResult; NoResult; NoResult; NoResult] /\
  run Scenario.sharp Scenario.engine_raises_on_enhanced Scenario.readFile
  = ([sharp_toBuffer (recipe standard);
      readBarcodes_call (recipe standard) dataMatrixOptions;
      sharp_toBuffer (recipe enhanced);
      readBarcodes_call (recipe enhanced) dataMatrixOptions;
      console_error "Processing error: decode engine exception"],
     Exited 2%Z) /\
  ~ In original
      (started (fst (run Scenario.sharp Scenario.engine_raises_on_enhanced
                       Scenario.readFile))).
Proof.
  repeat split. vm_compute. intros [H|[H|[]]]; discriminate H.
Qed.

End Runs.

(** * Further properties *)

(** ** Substrings of a concatenation *)

Section AppendFacts.

Lemma string_length_app (p s : string) :
  String.length (p ++ s) = String.length p + String.length s.
Proof. induction p as [|c p IH]; simpl; congruence. Qed.

Lemma substring_app_l (p s : string) : forall n m,
  n + m <= String.length p ->
  String.substring n m (p ++ s) = String.substring n m p.
Proof.
  induction p as [|c p IH]; intros n m H; simpl in H.
  - assert (n = 0) by lia. assert (m = 0) by lia. subst. simpl.
    now destruct s.
  - destruct n as [|n]; destruct m as [|m]; simpl; try reflexivity.
    + f_equal. apply (IH 0 m). simpl. lia.
    + apply IH. lia.
    + apply IH. lia.
Qed.

Lemma substring_app_r (p s : string) : forall n m,
  String.substring (String.length p + n) m (p ++ s) = String.substring n m s.
Proof. induction p as [|c p IH]; intros n m; simpl; auto. Qed.

Lemma JS_substring_app_l (p s : string) (a b : nat) :
  a <= b -> b <= String.length p ->
  JS.substring (p ++ s) a b = JS.substring p a b.
Proof.
  intros Hab Hb. unfold JS.substring. rewrite string_length_app.
  replace (Nat.min a (String.length p + String.length s)) with a by lia.
  replace (Nat.min b (String.length p + String.length s)) with b by lia.
  replace (Nat.min a (String.length p)) with a by lia.
  replace (Nat.min b (String.length p)) with b by lia.
  apply substring_app_l. lia.
Qed.

Lemma JS_substring_app_r (p s : string) (a b : nat) :
  JS.substring (p ++ s) (String.length p + a) (String.length p + b)
  = JS.substring s a b.
Proof.
  unfold JS.substring. rewrite string_length_app.
  set (lp := String.length p). set (ls := String.length s).
  replace (Nat.min (Nat.min (lp + a) (lp + ls)) (Nat.min (lp + b) (lp + ls)))
    with (lp + Nat.min (Nat.min a ls) (Nat.min b ls)) by lia.
  replace (Nat.max (Nat.min (lp + a) (lp + ls)) (Nat.min (lp + b) (lp + ls))
           - (lp + Nat.min (Nat.min a ls) (Nat.min b ls)))
    with (Nat.max (Nat.min a ls) (Nat.min b ls)
          - Nat.min (Nat.min a ls) (Nat.min b ls)) by lia.
  apply substring_app_r.
Qed.

Lemma JS_substring_all (s : string) (b : nat) :
  String.length s <= b -> JS.substring s 0 b = s.
Proof.
  intros H. unfold JS.substring.
  replace (Nat.min (Nat.min 0 (String.length s)) (Nat.min b (String.length s)))
    with 0 by lia.
  replace (Nat.max (Nat.min 0 (String.length s)) (Nat.min b (String.length s)) - 0)
    with (String.length s) by lia.
  apply substring_whole.
Qed.

(** The substring of [p ++ v ++ rest] that starts after [p] and has the
    length of [v] is [v]. *)
Lemma JS_substring_middle (p v rest : string) (a b : nat) :
  a = String.length p -> b = a + String.length v ->
  JS.substring (p ++ v ++ rest) a b = v.
Proof.
  intros -> ->.
  rewrite <- (Nat.add_0_r (String.length p)) at 1.
  rewrite JS_substring_app_r, JS_substring_app_l by lia.
  now apply JS_substring_all.
Qed.

Lemma JS_substring_from_app (p rest : string) (a : nat) :
  a = String.length p -> JS.substring_from (p ++ rest) a = rest.
Proof.
  intros ->. unfold JS.substring_from. rewrite string_length_app.
  rewrite <- (Nat.add_0_r (String.length p)) at 1.
  rewrite JS_substring_app_r. now apply JS_substring_all.
Qed.

(** The two code units at the cursor, when the cursor is at the end of
    [p]. *)
Lemma JS_substring_peek (p rest : string) (pos : nat) :
  pos = String.length p ->
  JS.substring (p ++ rest) pos (pos + 2) = JS.substring rest 0 2.
Proof.
  intros ->. rewrite <- (Nat.add_0_r (String.length p)) at 1.
  apply JS_substring_app_r.
Qed.

End AppendFacts.

(** ** The parser on well-formed and on foreign payloads *)

Section ParserMore.

Import GS1.

Lemma step_gtin_at (g rest : string) (r : ParsedRecord) :
  String.length g = 14 ->
  step_gtin ("01" ++ g ++ rest) 0 r
  = (mkRecord (raw r) (Some g) (Some (ndc_of_digits g)) (expirationDateRaw r)
       (expirationDate r) (lotNumber r) (serialNumber r), Normal 16).
Proof.
  intros H. unfold step_gtin.
  assert (E1 : JS.substring ("01" ++ g ++ rest) 0 (0 + 2) = "01")
    by (apply (JS_substring_middle "" "01" (g ++ rest)); reflexivity).
  assert (E2 : JS.substring ("01" ++ g ++ rest) (0 + 2) (0 + 2 + 14) = g)
    by (apply (JS_substring_middle "01" g rest); [|rewrite H]; reflexivity).
  rewrite E1. cbn [String.eqb Ascii.eqb Bool.eqb]. rewrite E2.
  unfold bind, set_gtin, lift, set_ndc, ret.
  rewrite (convertGTINtoNDC_14 g H). reflexivity.
Qed.

Lemma step_expiration_at (p e rest : string) (pos : nat) (r : ParsedRecord) :
  pos = String.length p -> String.length e = 6 ->
  step_expiration (p ++ "17" ++ e ++ rest) pos r
  = (mkRecord (raw r) (gtin r) (ndc r) (Some e) (Some (formatExpirationDate e))
       (lotNumber r) (serialNumber r), Normal (pos + 8)).
Proof.
  intros Hp He. unfold step_expiration.
  assert (E0 : JS.substring (p ++ "17" ++ e ++ rest) pos (pos + 2) = "17")
    by (apply (JS_substring_middle p "17" (e ++ rest)); subst; reflexivity).
  rewrite E0. cbn [String.eqb Ascii.eqb Bool.eqb].
  change (p ++ "17" ++ e ++ rest) with (p ++ String "1" (String "7" (e ++ rest))).
  assert (E : JS.substring (p ++ String "1" (String "7" (e ++ rest))) (pos + 2) (pos + 2 + 6)
              = e).
  { pose proof (JS_substring_middle (p ++ "17") e rest (pos + 2) (pos + 2 + 6)) as M.
    rewrite string_length_app in M. simpl in M.
    assert (A : ((p ++ "17") ++ e ++ rest)%string
                = (p ++ String "1" (String "7" (e ++ rest)))%string).
    { clear. induction p as [|c p IH]; simpl; [reflexivity | now rewrite IH]. }
    rewrite A in M. apply M; lia. }
  rewrite E. unfold bind, set_expirationDateRaw, set_expirationDate, ret. cbn.
  replace (pos + 2 + 6) with (pos + 8) by lia. reflexivity.
Qed.

Lemma step_lot_at (p lot : string) (pos : nat) (r : ParsedRecord) :
  pos = String.length p ->
  step_lot (p ++ "10" ++ lot) pos r
  = (mkRecord (raw r) (gtin r) (ndc r) (expirationDateRaw r) (expirationDate r)
       (Some lot) (serialNumber r), Normal (pos + 2)).
Proof.
  intros Hp.
  assert (H10 : JS.substring (p ++ "10" ++ lot) pos (pos + 2) = "10").
  { pose proof (JS_substring_middle p "10" lot pos (pos + 2)) as M.
    apply M; subst; reflexivity. }
  assert (E : JS.substring_from (p ++ "10" ++ lot) (pos + 2) = lot).
  { assert (A : (p ++ "10" ++ lot)%string = ((p ++ "10") ++ lot)%string).
    { clear. induction p as [|c p IH]; [reflexivity | simpl; f_equal; exact IH]. }
    rewrite A. apply JS_substring_from_app. rewrite string_length_app. simpl. lia. }
  rewrite (step_lot_present _ _ _ H10), E. reflexivity.
Qed.

(** A step whose identifier does not follow the cursor, the cursor being at
    the end of [p]. *)
Lemma step_expiration_skip (p rest : string) (pos : nat) (r : ParsedRecord) :
  pos = String.length p -> JS.substring rest 0 2 <> "17" ->
  step_expiration (p ++ rest) pos r = (r, Normal pos).
Proof.
  intros Hp H. apply step_expiration_absent. now rewrite JS_substring_peek.
Qed.

Lemma step_lot_skip (p rest : string) (pos : nat) (r : ParsedRecord) :
  pos = String.length p -> JS.substring rest 0 2 <> "10" ->
  step_lot (p ++ rest) pos r = (r, Normal pos).
Proof.
  intros Hp H. apply step_lot_absent. now rewrite JS_substring_peek.
Qed.

Lemma append_assoc (a b c : string) : ((a ++ b) ++ c = a ++ b ++ c)%string.
Proof. induction a as [|x a IH]; simpl; congruence. Qed.

Lemma append_empty_r (a : string) : (a ++ "")%string = a.
Proof. induction a as [|x a IH]; simpl; congruence. Qed.

Lemma peek_element (ai v rest : string) :
  String.length ai = 2 ->
  JS.substring (Wire.element ai (Some v) ++ rest) 0 2 = ai.
Proof.
  intros H. unfold Wire.element. rewrite append_assoc.
  apply (JS_substring_middle "" ai (v ++ rest) 0 2); [reflexivity | now rewrite H].
Qed.

Lemma stage_gtin (g : option string) (rest : string) (r : ParsedRecord) :
  (forall v, g = Some v -> String.length v = 14) ->
  JS.substring rest 0 2 <> "01" ->
  step_gtin (Wire.element "01" g ++ rest) 0 r
  = (match g with
     | Some v => mkRecord (raw r) (Some v) (Some (ndc_of_digits v))
                   (expirationDateRaw r) (expirationDate r) (lotNumber r)
                   (serialNumber r)
     | None => r
     end, Normal (String.length (Wire.element "01" g))).
Proof.
  intros Hg Hrest. destruct g as [v|].
  - unfold Wire.element. rewrite append_assoc, string_length_app, (Hg v eq_refl).
    apply step_gtin_at. now apply Hg.
  - apply step_gtin_absent. exact Hrest.
Qed.

Lemma stage_expiration (p : string) (e : option string) (rest : string)
                       (pos : nat) (r : ParsedRecord) :
  pos = String.length p ->
  (forall v, e = Some v -> String.length v = 6) ->
  JS.substring rest 0 2 <> "17" ->
  step_expiration (p ++ Wire.element "17" e ++ rest) pos r
  = (match e with
     | Some v => mkRecord (raw r) (gtin r) (ndc r) (Some v)
                   (Some (formatExpirationDate v)) (lotNumber r) (serialNumber r)
     | None => r
     end, Normal (pos + String.length (Wire.element "17" e))).
Proof.
  intros Hp He Hrest. destruct e as [v|].
  - unfold Wire.element. rewrite append_assoc, string_length_app, (He v eq_refl).
    apply step_expiration_at; [exact Hp | now apply He].
  - cbn [Wire.element String.length append]. rewrite Nat.add_0_r.
    now apply step_expiration_skip.
Qed.

Lemma stage_lot (p : string) (l : option string) (pos : nat) (r : ParsedRecord) :
  pos = String.length p ->
  step_lot (p ++ Wire.element "10" l) pos r
  = (match l with
     | Some v => mkRecord (raw r) (gtin r) (ndc r) (expirationDateRaw r)
                   (expirationDate r) (Some v) (serialNumber r)
     | None => r
     end, Normal (pos + String.length (Wire.element "10" l) - String.length
                    (match l with Some v => v | None => "" end))).
Proof.
  intros Hp. destruct l as [v|].
  - unfold Wire.element. rewrite string_length_app. cbn [String.length].
    replace (pos + (2 + String.length v) - String.length v) with (pos + 2) by lia.
    now apply step_lot_at.
  - cbn [Wire.element String.length]. rewrite Nat.add_0_r, Nat.sub_0_r.
    apply step_lot_skip; [exact Hp | discriminate].
Qed.

Lemma element_not_other (ai other : string) (v : option string) (rest : string) :
  String.length ai = 2 -> ai <> other ->
  JS.substring rest 0 2 <> other ->
  JS.substring (Wire.element ai v ++ rest) 0 2 <> other.
Proof.
  intros Hl Hne Hrest. destruct v as [v|].
  - now rewrite peek_element.
  - exact Hrest.
Qed.

(** X1.  A payload made of the elements 01, 17 and 10 in this order, each
    present or not, with a GTIN of 14 code units and a date of 6, is read
    back field by field: the object holds exactly the values that were
    written, the NDC and the printed date derived from them, no serial
    number, and nothing is logged. *)
Theorem payload_round_trip (g e l : option string) :
  (forall v, g = Some v -> String.length v = 14) ->
  (forall v, e = Some v -> String.length v = 6) ->
  run_parse (Wire.payload g e l)
  = (mkRecord (Wire.payload g e l) g (option_map ndc_of_digits g)
       e (option_map formatExpirationDate e) l None, []).
Proof.
  intros Hg He.
  assert (N10 : forall other, "10" <> other -> other <> "" ->
                JS.substring (Wire.element "10" l) 0 2 <> other).
  { intros other H1 H2. destruct l as [v|].
    - rewrite <- (append_empty_r (Wire.element "10" (Some v))).
      rewrite peek_element by reflexivity. exact H1.
    - intros E. apply H2. now rewrite <- E. }
  unfold run_parse, parse_body, bind. set (data := Wire.payload g e l).
  set (r0 := empty_result data).
  assert (S1 := stage_gtin g (Wire.element "17" e ++ Wire.element "10" l) r0 Hg).
  fold (Wire.payload g e l) in S1. fold data in S1.
  rewrite S1; clear S1.
  2:{ apply element_not_other; [reflexivity | discriminate |].
      apply N10; discriminate. }
  set (p1 := Wire.element "01" g).
  match goal with |- context [step_expiration data _ ?r] => set (r1 := r) end.
  assert (S2 := stage_expiration p1 e (Wire.element "10" l) (String.length p1) r1
                  eq_refl He).
  change (p1 ++ Wire.element "17" e ++ Wire.element "10" l) with data in S2.
  rewrite S2; clear S2.
  2:{ apply N10; discriminate. }
  match goal with |- context [step_lot data _ ?r] => set (r2 := r) end.
  assert (S3 := stage_lot (p1 ++ Wire.element "17" e) l
                  (String.length p1 + String.length (Wire.element "17" e)) r2).
  rewrite append_assoc in S3.
  change (p1 ++ Wire.element "17" e ++ Wire.element "10" l) with data in S3.
  rewrite S3 by (now rewrite string_length_app); clear S3.
  subst r2 r1 r0. destruct g, e, l; reflexivity.
Qed.

Lemma payload_round_trip_witness :
  run_parse "010035816082652817260827"
  = (mkRecord "010035816082652817260827" (Some "00358160826528")
       (Some "58160-8265-28") (Some "260827") (Some "August 27, 2026") None None,
     []).
Proof.
  apply (payload_round_trip (Some "00358160826528") (Some "260827") None).
  - intros v [= <-]. reflexivity.
  - intros v [= <-]. reflexivity.
Defined.

(** X2.  A payload whose first two code units are none of 01, 17 and 10
    gives an object with no field but [raw], and nothing is logged; so does
    every payload written with brackets around the identifiers, as the
    decoder prints it. *)
Theorem foreign_payload_is_empty :
  (forall data,
     JS.substring data 0 2 <> "01" -> JS.substring data 0 2 <> "17" ->
     JS.substring data 0 2 <> "10" ->
     run_parse data = (empty_result data, [])) /\
  (forall rest, run_parse (String "(" rest) = (empty_result (String "(" rest), [])).
Proof.
  assert (G : forall data,
     JS.substring data 0 2 <> "01" -> JS.substring data 0 2 <> "17" ->
     JS.substring data 0 2 <> "10" ->
     run_parse data = (empty_result data, [])).
  { intros data H1 H2 H3. unfold run_parse, parse_body, bind.
    rewrite (step_gtin_absent data 0 _ H1), (step_expiration_absent data 0 _ H2),
      (step_lot_absent data 0 _ H3). reflexivity. }
  split; [exact G|].
  intros rest. apply G; destruct rest; discriminate.
Qed.

Lemma foreign_payload_is_empty_witness :
  run_parse "(01)00358160826528(17)260827(10)Z27PB(21)50MYPBEBMH"
  = (empty_result "(01)00358160826528(17)260827(10)Z27PB(21)50MYPBEBMH", []).
Proof.
  apply (proj1 foreign_payload_is_empty); discriminate.
Defined.

(** Splits a goal about [run_parse] into the cases of the three tests. *)
Ltac run_parse_cases data :=
  unfold parseGS1DataMatrix, run_parse, parse_body, bind;
  let r0 := fresh "r0" in
  set (r0 := empty_result data);
  destruct (step_gtin_cases data r0) as [[? ->]|[(? & ? & ->)|(? & ? & ->)]];
  [ match goal with
    | |- context [step_expiration data ?p ?r] =>
        destruct (step_expiration_cases data p r) as [[? ->]|[? ->]]
    end;
    match goal with
    | |- context [step_lot data ?p ?r] =>
        destruct (step_lot_cases data p r) as [[? ->]|[? ->]]
    end
  | match goal with
    | |- context [step_expiration data ?p ?r] =>
        destruct (step_expiration_cases data p r) as [[? ->]|[? ->]]
    end;
    match goal with
    | |- context [step_lot data ?p ?r] =>
        destruct (step_lot_cases data p r) as [[? ->]|[? ->]]
    end
  | ];
  subst r0; cbn [fst snd raw gtin ndc expirationDateRaw expirationDate lotNumber
                 serialNumber empty_result].

Lemma gtin_length_iff (data : string) :
  JS.substring data 0 2 = "01" ->
  (String.length (JS.substring data 2 16) = 14 <-> 16 <= String.length data).
Proof.
  intros H. pose proof (identifier_fits data 0 "01" eq_refl H).
  rewrite length_JS_substring; lia.
Qed.

(** X3.  The parser logs an error exactly when the payload starts with 01
    and has fewer than 16 code units, and then the object holds, besides the
    payload, only the GTIN: all that follows the identifier. *)
Theorem error_logged_iff_gtin_short (data : string) :
  (JS.substring data 0 2 = "01" /\ String.length data < 16 ->
   run_parse data
   = (mkRecord data (Some (JS.substring_from data 2)) None None None None None,
      [InvalidFormat])) /\
  (snd (run_parse data) <> [] ->
   JS.substring data 0 2 = "01" /\ String.length data < 16).
Proof.
  split.
  - intros [H01 Hlen].
    assert (E : JS.substring_from data 2 = JS.substring data 2 16).
    { unfold JS.substring_from, JS.substring. f_equal; lia. }
    rewrite E.
    pose proof (gtin_length_iff data H01) as G.
    run_parse_cases data; try contradiction; try (exfalso; lia).
    reflexivity.
  - run_parse_cases data; intros Hlog; try (now contradiction Hlog).
    split; [assumption|].
    match goal with H : JS.substring data 0 2 = "01" |- _ =>
      pose proof (gtin_length_iff data H) end.
    lia.
Qed.

Lemma error_logged_iff_gtin_short_witness :
  run_parse "01123"
  = (mkRecord "01123" (Some "123") None None None None None, [InvalidFormat]).
Proof.
  apply (proj1 (error_logged_iff_gtin_short "01123")).
  split; [reflexivity | simpl; lia].
Defined.

(** X4.  Every field is read at a place fixed by the fields before it: the
    GTIN right after a leading 01; the expiration date after a 17 found at
    offset 16 when there is a GTIN and at offset 0 when there is none; the
    lot number after a 10 found 8 code units further when there is an
    expiration date, and at that same offset when there is none.  A field is
    present exactly when its identifier stands at that place. *)
Theorem fields_at_fixed_offsets (data : string) :
  let result := parseGS1DataMatrix data in
  let p1 := match gtin result with Some _ => 16 | None => 0 end in
  let p2 := p1 + match expirationDateRaw result with Some _ => 8 | None => 0 end in
  gtin result
  = (if JS.substring data 0 2 =? "01" then Some (JS.substring data 2 16) else None) /\
  expirationDateRaw result
  = (if JS.substring data p1 (p1 + 2) =? "17"
     then Some (JS.substring data (p1 + 2) (p1 + 8)) else None) /\
  lotNumber result
  = (if JS.substring data p2 (p2 + 2) =? "10"
     then Some (JS.substring_from data (p2 + 2)) else None).
Proof.
  assert (Hshort : JS.substring data 0 2 = "01" ->
                   String.length (JS.substring data 2 16) <> 14 ->
                   forall ai, String.length ai = 2 ->
                   JS.substring data 16 18 <> ai).
  { intros H01 Hg ai Hai E. pose proof (gtin_length_iff data H01).
    pose proof (identifier_fits data 16 ai Hai E). lia. }
  run_parse_cases data; cbn [Nat.add] in *;
    repeat match goal with
           | H : JS.substring data _ _ = _ |- _ => rewrite H
           | H : JS.substring data _ _ <> _ |- _ =>
               rewrite (proj2 (String.eqb_neq _ _) H)
           end;
    cbn [String.eqb Ascii.eqb Bool.eqb Nat.add]; try (repeat split; reflexivity).
  rewrite (proj2 (String.eqb_neq _ _) (Hshort ltac:(assumption) ltac:(assumption)
                                         "17" eq_refl)).
  rewrite (proj2 (String.eqb_neq _ _) (Hshort ltac:(assumption) ltac:(assumption)
                                         "10" eq_refl)).
  repeat split; reflexivity.
Qed.

End ParserMore.

(** ** The printed expiration date *)

Section CalendarFacts.

Local Open Scope Z_scope.

Lemma DaysInYear_cases (y : Z) : JS.DaysInYear y = 365 \/ JS.DaysInYear y = 366.
Proof.
  unfold JS.DaysInYear.
  destruct (y mod 4 =? 0); simpl; auto.
  destruct (y mod 100 =? 0); simpl; auto.
  destruct (y mod 400 =? 0); simpl; auto.
Qed.

Lemma div_4_succ (y : Z) :
  (y + 1 - 1969) / 4 = (y - 1969) / 4 + (if y mod 4 =? 0 then 1 else 0).
Proof. destruct (Z.eqb_spec (y mod 4) 0); Z.to_euclidean_division_equations; lia. Qed.

Lemma div_100_succ (y : Z) :
  (y + 1 - 1901) / 100 = (y - 1901) / 100 + (if y mod 100 =? 0 then 1 else 0).
Proof. destruct (Z.eqb_spec (y mod 100) 0); Z.to_euclidean_division_equations; lia. Qed.

Lemma div_400_succ (y : Z) :
  (y + 1 - 1601) / 400 = (y - 1601) / 400 + (if y mod 400 =? 0 then 1 else 0).
Proof. destruct (Z.eqb_spec (y mod 400) 0); Z.to_euclidean_division_equations; lia. Qed.

Lemma mod_100_4 (y : Z) : y mod 100 = 0 -> y mod 4 = 0.
Proof. intros. Z.to_euclidean_division_equations; lia. Qed.

Lemma mod_400_100 (y : Z) : y mod 400 = 0 -> y mod 100 = 0.
Proof. intros. Z.to_euclidean_division_equations; lia. Qed.

Lemma DayFromYear_succ (y : Z) :
  JS.DayFromYear (y + 1) = JS.DayFromYear y + JS.DaysInYear y.
Proof.
  unfold JS.DayFromYear, JS.DaysInYear.
  rewrite div_4_succ, div_100_succ, div_400_succ.
  destruct (Z.eqb_spec (y mod 4) 0) as [E4|E4];
    destruct (Z.eqb_spec (y mod 100) 0) as [E100|E100];
    destruct (Z.eqb_spec (y mod 400) 0) as [E400|E400]; cbn [negb];
    try lia;
    try (apply mod_400_100 in E400; contradiction);
    try (apply mod_100_4 in E100; contradiction).
Qed.

Lemma DayFromYear_mono (y y' : Z) : y <= y' -> JS.DayFromYear y <= JS.DayFromYear y'.
Proof.
  intros H. unfold JS.DayFromYear. Z.to_euclidean_division_equations. lia.
Qed.

Lemma climb_year_spec (fuel : nat) : forall day y0,
  JS.DayFromYear y0 <= day -> day < JS.DayFromYear (y0 + Z.of_nat fuel) ->
  JS.DayFromYear (JS.climb_year fuel day y0) <= day
  < JS.DayFromYear (JS.climb_year fuel day y0 + 1).
Proof.
  induction fuel as [|fuel IH]; intros day y0 Hlo Hhi.
  - rewrite Z.add_0_r in Hhi. lia.
  - cbn [JS.climb_year]. destruct (Z.leb_spec (JS.DayFromYear (y0 + 1)) day) as [L|L].
    + apply IH; [exact L|]. now replace (y0 + 1 + Z.of_nat fuel)
        with (y0 + Z.of_nat (S fuel)) by lia.
    + lia.
Qed.

Lemma year_unique (day y y' : Z) :
  JS.DayFromYear y <= day < JS.DayFromYear (y + 1) ->
  JS.DayFromYear y' <= day < JS.DayFromYear (y' + 1) -> y = y'.
Proof.
  intros H H'. destruct (Z.lt_trichotomy y y') as [L|[E|L]]; [|exact E|].
  - pose proof (DayFromYear_mono (y + 1) y' ltac:(lia)). lia.
  - pose proof (DayFromYear_mono (y' + 1) y ltac:(lia)). lia.
Qed.

(** A day of the year [y] is found in [y], for the days of the years 1900
    to 2100. *)
Lemma YearFromDay_in_year (day y : Z) :
  1900 <= y <= 2100 ->
  JS.DayFromYear y <= day < JS.DayFromYear (y + 1) ->
  JS.YearFromDay day = y.
Proof.
  intros Hy Hday.
  assert (Hb : -26000 < day < 48000).
  { pose proof (DayFromYear_mono 1900 y ltac:(lia)).
    pose proof (DayFromYear_mono (y + 1) 2101 ltac:(lia)).
    change (JS.DayFromYear 1900) with (-25567) in *.
    change (JS.DayFromYear 2101) with 47847 in *. lia. }
  apply (year_unique day); [|exact Hday].
  unfold JS.YearFromDay.
  replace (Z.to_nat (Z.abs day / 100000) + 3)%nat with 3%nat
    by (assert (Z.abs day / 100000 = 0) by (apply Z.div_small; lia); lia).
  apply climb_year_spec.
  - destruct (Z.leb_spec 0 day); unfold JS.DayFromYear;
      Z.to_euclidean_division_equations; lia.
  - destruct (Z.leb_spec 0 day); unfold JS.DayFromYear;
      Z.to_euclidean_division_equations; lia.
Qed.

(** Evaluates the month index and the table of days before a month, once
    the month is a numeral. *)
Ltac month_numeral :=
  repeat match goal with
         | |- context [Z.of_nat ?k - 1] =>
             let v := eval compute in (Z.of_nat k - 1) in
             change (Z.of_nat k - 1) with v
         end;
  repeat match goal with
         | |- context [?v / 12] =>
             let q := eval compute in (v / 12) in change (v / 12) with q
         | |- context [?v mod 12] =>
             let r := eval compute in (v mod 12) in change (v mod 12) with r
         end;
  cbn [JS.days_before_month].

Ltac leap_cases Hleap Hd :=
  let L := fresh "L" in
  let D := fresh "D" in
  cbn [Calendar.days_in_month] in Hd;
  destruct Hleap as [[L D]|[L D]]; rewrite ?L, ?D in *;
  cbn [Z.eqb Pos.eqb] in Hd.

(** A real day of the calendar, built by [MakeDay], is read back as that
    year, month and day. *)
Lemma civil_round_trip (y : Z) (m d : nat) :
  1900 <= y <= 2100 ->
  (1 <= m <= 12)%nat ->
  (1 <= d <= Calendar.days_in_month y m)%nat ->
  let day := JS.MakeDay y (Z.of_nat m - 1) (Z.of_nat d) in
  JS.YearFromDay day = y /\
  JS.MonthFromDay day = Z.of_nat m - 1 /\
  JS.DateFromDay day = Z.of_nat d.
Proof.
  intros Hy Hm Hd day.
  assert (Hleap : JS.InLeapYear y = 0 /\ JS.DaysInYear y = 365 \/
                  JS.InLeapYear y = 1 /\ JS.DaysInYear y = 366).
  { unfold JS.InLeapYear. destruct (DaysInYear_cases y) as [E|E]; rewrite E; auto. }
  assert (Hday : exists before,
             day = JS.DayFromYear y + before + Z.of_nat d - 1 /\
             before = JS.days_before_month (JS.InLeapYear y) (Z.of_nat m - 1) /\
             0 <= before /\ before + Z.of_nat d <= JS.DaysInYear y).
  { exists (JS.days_before_month (JS.InLeapYear y) (Z.of_nat m - 1)).
    subst day. unfold JS.MakeDay.
    do 13 (destruct m as [|m];
           [try lia; month_numeral; rewrite ?Z.add_0_r; leap_cases Hleap Hd;
            repeat split; lia|]).
    lia. }
  destruct Hday as (before & Eday & Ebefore & Hb0 & Hb1).
  assert (Hyear : JS.YearFromDay day = y).
  { apply YearFromDay_in_year; [exact Hy|]. rewrite DayFromYear_succ. lia. }
  split; [exact Hyear|].
  unfold JS.DateFromDay, JS.MonthFromDay. rewrite Hyear.
  replace (day - JS.DayFromYear y) with (before + Z.of_nat d - 1) by lia.
  clear Eday Hyear. subst before.
  do 13 (destruct m as [|m];
         [try lia; month_numeral; leap_cases Hleap Hd;
          repeat match goal with
                 | |- context [?a <? ?b] => destruct (Z.ltb_spec a b); try lia
                 end;
          cbn [JS.days_before_month]; split; lia|]).
  lia.
Qed.

End CalendarFacts.

Section ExpirationMore.

Import GS1.

Lemma parseInt_two_digits (n : nat) :
  n <= 99 -> JS.parseInt (two_digits n) = Some (Z.of_nat n).
Proof.
  intros H. apply option_Z_eqb_eq.
  apply (forallb_below
           (fun n => match JS.parseInt (two_digits n) with
                     | Some z => Z.eqb z (Z.of_nat n)
                     | None => false
                     end) 100); [vm_compute; reflexivity | lia].
Qed.

(** The formatter on three fields of two code units each. *)
Lemma formatExpirationDate_fields (a b c : string) :
  String.length a = 2 -> String.length b = 2 -> String.length c = 2 ->
  formatExpirationDate (a ++ b ++ c)
  = JS.toLocaleDateString_long
      (JS.new_Date (fullYear (JS.parseInt a)) (minus_one (JS.parseInt b))
         (JS.parseInt c)).
Proof.
  intros Ha Hb Hc.
  destruct a as [|a1 [|a2 [|? ?]]]; try discriminate Ha.
  destruct b as [|b1 [|b2 [|? ?]]]; try discriminate Hb.
  destruct c as [|c1 [|c2 [|? ?]]]; try discriminate Hc.
  reflexivity.
Qed.

Lemma window_bounds (yy : nat) :
  yy <= 99 ->
  (1931 <= (if (yy <=? 30)%nat then 2000 + Z.of_nat yy else 1900 + Z.of_nat yy)
   <= 2030)%Z.
Proof. intros H. destruct (Nat.leb_spec yy 30); lia. Qed.

Lemma MakeFullYear_window (y : Z) : (1900 <= y)%Z -> JS.MakeFullYear y = y.
Proof.
  intros H. unfold JS.MakeFullYear.
  destruct (Z.leb_spec 0 y); destruct (Z.leb_spec y 99); simpl; lia.
Qed.

(** A real day of the calendar is printed as itself. *)
Lemma print_civil (y : Z) (m d : nat) :
  (1900 <= y <= 2100)%Z -> 1 <= m <= 12 -> 1 <= d <= Calendar.days_in_month y m ->
  JS.toLocaleDateString_long (Some (JS.MakeDay y (Z.of_nat m - 1) (Z.of_nat d)))
  = JS.month_name (Z.of_nat m - 1) ++ " " ++ JS.show_Z (Z.of_nat d) ++ ", "
      ++ JS.show_Z y.
Proof.
  intros Hy Hm Hd. destruct (civil_round_trip y m d Hy Hm Hd) as (E1 & E2 & E3).
  unfold JS.toLocaleDateString_long. now rewrite E1, E2, E3.
Qed.

(** The formatter of a zone on three fields of two code units each. *)
Lemma Zoned_formatExpirationDate_fields (zone : Zoned.Zone) (a b c : string) :
  String.length a = 2 -> String.length b = 2 -> String.length c = 2 ->
  Zoned.formatExpirationDate zone (a ++ b ++ c)
  = JS.toLocaleDateString_long
      (Zoned.new_Date zone (fullYear (JS.parseInt a)) (minus_one (JS.parseInt b))
         (JS.parseInt c)).
Proof.
  intros Ha Hb Hc.
  destruct a as [|a1 [|a2 [|? ?]]]; try discriminate Ha.
  destruct b as [|b1 [|b2 [|? ?]]]; try discriminate Hb.
  destruct c as [|c1 [|c2 [|? ?]]]; try discriminate Hc.
  reflexivity.
Qed.

(** In a zone that has every calendar day the formatter is the one of the
    parser. *)
Lemma Zoned_formatExpirationDate_plain (yymmdd : string) :
  Zoned.formatExpirationDate Zoned.plain yymmdd = formatExpirationDate yymmdd.
Proof.
  unfold Zoned.formatExpirationDate, formatExpirationDate, Zoned.new_Date.
  destruct (JS.falsy yymmdd || negb (String.length yymmdd =? 6)%nat);
    [reflexivity|].
  cbv zeta. now destruct (JS.new_Date _ _ _).
Qed.

(** The date built from a year of the window and two numbers. *)
Lemma Zoned_new_Date_window (zone : Zoned.Zone) (yy : nat) (mi d : Z) :
  let year := (if (yy <=? 30)%nat then 2000 + Z.of_nat yy else 1900 + Z.of_nat yy)%Z in
  yy <= 99 ->
  Zoned.new_Date zone (fullYear (JS.parseInt (two_digits yy))) (Some mi) (Some d)
  = Some (zone (JS.MakeDay year mi d)).
Proof.
  intros year Hy. pose proof (window_bounds yy Hy) as Hw. fold year in Hw.
  rewrite parseInt_two_digits by lia.
  cbn [fullYear Zoned.new_Date JS.new_Date].
  replace (if (Z.of_nat yy <=? 30)%Z then (2000 + Z.of_nat yy)%Z
           else (1900 + Z.of_nat yy)%Z) with year
    by (unfold year; destruct (Nat.leb_spec yy 30); destruct (Z.leb_spec (Z.of_nat yy) 30);
        lia).
  now rewrite MakeFullYear_window by lia.
Qed.



Lemma MakeDay_carry (y mi d k : Z) :
  JS.MakeDay y (mi + 12 * k) d = JS.MakeDay (y + k) mi d.
Proof.
  unfold JS.MakeDay.
  replace (mi + 12 * k)%Z with (mi + k * 12)%Z by lia.
  rewrite Z.div_add, Z.mod_add by lia.
  now replace (y + (mi / 12 + k))%Z with (y + k + mi / 12)%Z by lia.
Qed.

Lemma MakeDay_in_year (y mi d : Z) :
  (0 <= mi <= 11)%Z ->
  JS.MakeDay y mi d
  = (JS.DayFromYear y + JS.days_before_month (JS.InLeapYear y) mi + d - 1)%Z.
Proof.
  intros H. unfold JS.MakeDay.
  rewrite Z.div_small, Z.mod_small, Z.add_0_r by lia. reflexivity.
Qed.

(** X6.  Impossible dates are not rejected but rolled over.  For every
    two-digit year, in a time zone that has the day rolled to, month 13 is
    printed as January of the next year and month 00 as December of the year
    before, day 00 of January as the 31st of December of the year before,
    and the 30th of February as the 1st of March in a leap year and the 2nd
    otherwise; the year printed can so leave the window. *)
Theorem impossible_dates_roll_over (zone : Zoned.Zone) (yy : nat) :
  let year := (if (yy <=? 30)%nat then 2000 + Z.of_nat yy else 1900 + Z.of_nat yy)%Z in
  yy <= 99 ->
  (forall d, 1 <= d <= 31 -> Zoned.keeps zone (year + 1) 1 (Z.of_nat d) ->
     Zoned.formatExpirationDate zone (two_digits yy ++ "13" ++ two_digits d)
     = "January " ++ JS.show_Z (Z.of_nat d) ++ ", " ++ JS.show_Z (year + 1)) /\
  (forall d, 1 <= d <= 31 -> Zoned.keeps zone (year - 1) 12 (Z.of_nat d) ->
     Zoned.formatExpirationDate zone (two_digits yy ++ "00" ++ two_digits d)
     = "December " ++ JS.show_Z (Z.of_nat d) ++ ", " ++ JS.show_Z (year - 1)) /\
  (Zoned.keeps zone (year - 1) 12 31 ->
   Zoned.formatExpirationDate zone (two_digits yy ++ "0100")
   = "December 31, " ++ JS.show_Z (year - 1)) /\
  (Zoned.keeps zone year 3 (if (JS.DaysInYear year =? 366)%Z then 1 else 2) ->
   Zoned.formatExpirationDate zone (two_digits yy ++ "0230")
   = (if (JS.DaysInYear year =? 366)%Z then "March 1, " else "March 2, ")
       ++ JS.show_Z year).
Proof.
  intros year Hy.
  pose proof (window_bounds yy Hy) as Hw. fold year in Hw.
  pose proof (Zoned_new_Date_window zone yy) as Hnew. cbv zeta in Hnew. fold year in Hnew.
  unfold Zoned.keeps. repeat split.
  - intros d Hd K. rewrite Zoned_formatExpirationDate_fields by reflexivity.
    rewrite (parseInt_two_digits d) by lia.
    change (JS.parseInt "13") with (Some 13%Z).
    cbn [minus_one]. rewrite Hnew by exact Hy.
    replace (JS.MakeDay year (13 - 1) (Z.of_nat d))
      with (JS.MakeDay (year + 1) (Z.of_nat 1 - 1) (Z.of_nat d))
      by (symmetry; apply (MakeDay_carry year 0 (Z.of_nat d) 1)).
    change (Z.of_nat 1 - 1)%Z with (1 - 1)%Z. rewrite K.
    apply (print_civil (year + 1) 1 d); [lia | lia | simpl; lia].
  - intros d Hd K. rewrite Zoned_formatExpirationDate_fields by reflexivity.
    rewrite (parseInt_two_digits d) by lia.
    change (JS.parseInt "00") with (Some 0%Z).
    cbn [minus_one]. rewrite Hnew by exact Hy.
    replace (JS.MakeDay year (0 - 1) (Z.of_nat d))
      with (JS.MakeDay (year - 1) (Z.of_nat 12 - 1) (Z.of_nat d))
      by (symmetry; apply (MakeDay_carry year 11 (Z.of_nat d) (-1))).
    change (Z.of_nat 12 - 1)%Z with (12 - 1)%Z. rewrite K.
    apply (print_civil (year - 1) 12 d); [lia | lia | simpl; lia].
  - intros K.
    change (two_digits yy ++ "0100") with (two_digits yy ++ "01" ++ "00").
    rewrite Zoned_formatExpirationDate_fields by reflexivity.
    change (JS.parseInt "01") with (Some 1%Z). change (JS.parseInt "00") with (Some 0%Z).
    cbn [minus_one]. rewrite Hnew by exact Hy.
    replace (JS.MakeDay year (1 - 1) 0) with (JS.MakeDay (year - 1) (12 - 1) 31).
    + rewrite K. apply (print_civil (year - 1) 12 31); [lia | lia | simpl; lia].
    + rewrite !MakeDay_in_year by (simpl; lia).
      change (12 - 1)%Z with 11%Z. change (1 - 1)%Z with 0%Z.
      cbn [JS.days_before_month].
      pose proof (DayFromYear_succ (year - 1)) as S.
      replace (year - 1 + 1)%Z with year in S by lia.
      unfold JS.InLeapYear. destruct (DaysInYear_cases (year - 1)) as [E|E];
        rewrite E in *; cbn [Z.eqb Pos.eqb]; lia.
  - change (two_digits yy ++ "0230") with (two_digits yy ++ "02" ++ "30").
    rewrite Zoned_formatExpirationDate_fields by reflexivity.
    change (JS.parseInt "02") with (Some 2%Z). change (JS.parseInt "30") with (Some 30%Z).
    cbn [minus_one]. rewrite Hnew by exact Hy.
    destruct (DaysInYear_cases year) as [E|E]; rewrite E; cbn [Z.eqb Pos.eqb];
      intros K.
    + replace (JS.MakeDay year (2 - 1) 30) with (JS.MakeDay year (3 - 1) 2).
      * rewrite K. apply (print_civil year 3 2); [lia | lia | simpl; lia].
      * rewrite !MakeDay_in_year by (simpl; lia).
        change (3 - 1)%Z with 2%Z. change (2 - 1)%Z with 1%Z.
        cbn [JS.days_before_month]. unfold JS.InLeapYear. rewrite E.
        cbn [Z.eqb Pos.eqb]. lia.
    + replace (JS.MakeDay year (2 - 1) 30) with (JS.MakeDay year (3 - 1) 1).
      * rewrite K. apply (print_civil year 3 1); [lia | lia | simpl; lia].
      * rewrite !MakeDay_in_year by (simpl; lia).
        change (3 - 1)%Z with 2%Z. change (2 - 1)%Z with 1%Z.
        cbn [JS.days_before_month]. unfold JS.InLeapYear. rewrite E.
        cbn [Z.eqb Pos.eqb]. lia.
Qed.

Lemma impossible_dates_roll_over_witness :
  Zoned.formatExpirationDate Zoned.plain "301301" = "January 1, 2031" /\
  Zoned.formatExpirationDate Zoned.apia "310015" = "December 15, 1930".
Proof.
  destruct (impossible_dates_roll_over Zoned.plain 30 ltac:(lia)) as (H1 & _).
  destruct (impossible_dates_roll_over Zoned.apia 31 ltac:(lia)) as (_ & H2 & _).
  split; [apply (H1 1); [lia | reflexivity] | apply (H2 15); [lia | reflexivity]].
Defined.

Lemma month_name_initial (m : Z) :
  exists c r, JS.month_name m = String c r /\ c <> "I"%char.
Proof.
  unfold JS.month_name.
  repeat match goal with
         | |- context [match ?p with _ => _ end] => destruct p
         end;
    do 2 eexists; (split; [reflexivity | discriminate]).
Qed.

(** X7.  On a string of six code units the formatter prints the invalid
    date exactly when one of its three fields of two code units is not read
    as a number; a field whose first code unit is neither a digit, nor a
    sign, nor white space is such a field. *)
Theorem invalid_date_iff (a b c : string) :
  String.length a = 2 -> String.length b = 2 -> String.length c = 2 ->
  (formatExpirationDate (a ++ b ++ c) = "Invalid Date" <->
   JS.parseInt a = None \/ JS.parseInt b = None \/ JS.parseInt c = None) /\
  (forall x y, JS.is_white x = false -> JS.digit_value 10 x = None ->
     x <> "+"%char -> x <> "-"%char ->
     JS.parseInt (String x (String y "")) = None).
Proof.
  intros Ha Hb Hc. split.
  - rewrite formatExpirationDate_fields by assumption.
    destruct (JS.parseInt a) as [ya|]; [|split; [auto | reflexivity]].
    destruct (JS.parseInt b) as [mb|]; [|split; [auto | reflexivity]].
    destruct (JS.parseInt c) as [dc|]; [|split; [auto | reflexivity]].
    split; [|intros [H|[H|H]]; discriminate H].
    cbn [fullYear minus_one JS.new_Date JS.toLocaleDateString_long].
    destruct (month_name_initial
                (JS.MonthFromDay
                   (JS.MakeDay
                      (JS.MakeFullYear (if (ya <=? 30)%Z then (2000 + ya)%Z
                                        else (1900 + ya)%Z))
                      (mb - 1) dc))) as (x & r & -> & Hx).
    intros E. injection E as E _. contradiction.
  - intros x y Hw Hd Hp Hm.
    destruct x as [[] [] [] [] [] [] [] []];
      try discriminate Hw; try discriminate Hd;
      try (exfalso; apply Hp; reflexivity); try (exfalso; apply Hm; reflexivity);
      reflexivity.
Qed.

Lemma invalid_date_iff_witness :
  formatExpirationDate "2X1201" <> "Invalid Date" /\
  formatExpirationDate "26AU27" = "Invalid Date".
Proof.
  split.
  - intros E.
    destruct (proj1 (proj1 (invalid_date_iff "2X" "12" "01" eq_refl eq_refl eq_refl)) E)
      as [H|[H|H]]; discriminate H.
  - apply (proj2 (proj1 (invalid_date_iff "26" "AU" "27" eq_refl eq_refl eq_refl))).
    right. left.
    apply (proj2 (invalid_date_iff "26" "AU" "27" eq_refl eq_refl eq_refl) "A"%char "U"%char);
      reflexivity || discriminate.
Defined.

End ExpirationMore.

(** ** More on the decode cascade *)

Section CascadeMore.

Import Decode.
Local Open Scope list_scope.

Variable Buffer : Type.
Variable sharp : list filter -> completion Buffer.
Variable readBarcodes :
  Buffer -> option ReaderOptions -> completion (option (list ReadResult)).
Variable readFile : completion Buffer.

Local Abbreviation run := (Decode.run sharp readBarcodes readFile).
Local Abbreviation outcome := (Decode.outcome sharp readBarcodes readFile).
Local Abbreviation events_of := (Decode.events_of sharp readFile).
Local Abbreviation cascade := (Decode.cascade sharp readBarcodes readFile).
Local Abbreviation trace := (Decode.trace Buffer).

(** Every list of attempts splits at its first attempt that does not
    complete without an accepted result, when there is one. *)
Lemma first_decisive (l : list attempt) :
  Forall (fun b => outcome b = NoResult) l \/
  exists pre a post,
    l = pre ++ a :: post /\
    Forall (fun b => outcome b = NoResult) pre /\
    outcome a <> NoResult.
Proof.
  induction l as [|a l IH].
  - left. constructor.
  - destruct (outcome a) as [e| |t] eqn:E.
    + right. exists [], a, l. repeat split; [constructor | congruence].
    + destruct IH as [IH|(pre & b & post & -> & Hpre & Hb)].
      * left. now constructor.
      * right. exists (a :: pre), b, post. repeat split; [now constructor | exact Hb].
    + right. exists [], a, l. repeat split; [constructor | congruence].
Qed.

(** The three ways a run ends, with what it has written and begun. *)
Lemma run_ends :
  (exists pre a post t,
     attempts = pre ++ a :: post /\
     Forall (fun b => outcome b = NoResult) pre /\ outcome a = Valid t /\
     snd run = Exited 0 /\ stdout (fst run) = [t] /\ stderr (fst run) = [] /\
     started (fst run) = pre ++ [a]) \/
  (exists pre a post e,
     attempts = pre ++ a :: post /\
     Forall (fun b => outcome b = NoResult) pre /\ outcome a = Raised e /\
     snd run = Exited 2 /\ stdout (fst run) = [] /\
     stderr (fst run) = [("Processing error: " ++ message e)%string] /\
     started (fst run) = pre ++ [a]) \/
  (Forall (fun b => outcome b = NoResult) attempts /\
   snd run = Exited 2 /\ stdout (fst run) = [] /\
   stderr (fst run) = ["Decode failed"] /\
   started (fst run) = attempts).
Proof.
  destruct (first_decisive attempts) as [Hall|(pre & a & post & H & Hpre & Ha)].
  - right. right. split; [exact Hall|].
    destruct (events_of_all_read Buffer sharp readFile attempts (fun x Hx => Hx))
      as (P1 & P2 & P3).
    assert (E : run = (flat_map events_of attempts ++ [console_error "Decode failed"],
                       Exited 2%Z)).
    { rewrite pipeline_cascade.
      rewrite <- (app_nil_r attempts) at 1. now rewrite cascade_skips. }
    rewrite E. cbn [fst snd].
    rewrite started_app, stdout_app, stderr_app, P1, P2, P3. cbn.
    rewrite ?app_nil_r. repeat split.
  - destruct (run_reaches Buffer sharp readBarcodes readFile pre post a H Hpre)
      as (E & S1 & S2 & S3).
    destruct (outcome a) as [e| |t] eqn:Ea; [|congruence|].
    + right. left. exists pre, a, post, e.
      split; [exact H|]. split; [exact Hpre|]. split; [exact Ea|].
      rewrite E. cbn [Decode.cascade]. rewrite Ea. cbn [fst snd].
      rewrite started_app, stdout_app, stderr_app, S1, S2, S3. cbn.
      rewrite ?app_nil_r. repeat split.
    + left. exists pre, a, post, t.
      split; [exact H|]. split; [exact Hpre|]. split; [exact Ea|].
      rewrite E. cbn [Decode.cascade]. rewrite Ea. cbn [fst snd].
      rewrite started_app, stdout_app, stderr_app, S1, S2, S3. cbn.
      rewrite ?app_nil_r. repeat split.
Qed.

(** X8.  The exit code tells what the script has written.  Without a file
    it writes the usage line, exits with code 1 and calls no capability.
    With a file it either prints exactly one line, writes no error and exits
    with code 0, or prints nothing, writes exactly one error line and exits
    with code 2. *)
Theorem exit_code_contract (file_ok : bool) :
  let r := script Buffer sharp readBarcodes readFile file_ok [] in
  (file_ok = false /\
   r = ([console_error "Usage: decode-dm.js <image>"], Exited 1)) \/
  (file_ok = true /\ snd r = Exited 0 /\
   (exists t, stdout (fst r) = [t]) /\ stderr (fst r) = []) \/
  (file_ok = true /\ snd r = Exited 2 /\
   stdout (fst r) = [] /\ exists line, stderr (fst r) = [line]).
Proof.
  destruct file_ok; cbn zeta; [right | left; split; reflexivity].
  change (script Buffer sharp readBarcodes readFile true []) with run.
  destruct run_ends as [(pre & a & post & t & _ & _ & _ & E & O & R & _)
                       |[(pre & a & post & e & _ & _ & _ & E & O & R & _)
                        |(_ & E & O & R & _)]].
  - left. repeat split; eauto.
  - right. repeat split; eauto.
  - right. repeat split; eauto.
Qed.

Lemma accepted_is_valid (a : attempt) (rs : option (list ReadResult)) (t : string) :
  accept a rs = Some t ->
  exists l r, rs = Some l /\ In r l /\ isValid r = true /\ text r = t.
Proof.
  assert (F : first_valid rs = Some t ->
              exists l r, rs = Some l /\ In r l /\ isValid r = true /\ text r = t).
  { unfold first_valid. destruct rs as [[|r0 l]|]; try discriminate.
    destruct (List.filter isValid (r0 :: l)) as [|v vs] eqn:Ef; [discriminate|].
    intros [= <-]. exists (r0 :: l), v.
    assert (Hv : In v (List.filter isValid (r0 :: l))) by (rewrite Ef; now left).
    apply filter_In in Hv. destruct Hv as [Hin Hval]. repeat split; assumption. }
  assert (G : first_if_valid rs = Some t ->
              exists l r, rs = Some l /\ In r l /\ isValid r = true /\ text r = t).
  { unfold first_if_valid. destruct rs as [[|r0 l]|]; try discriminate.
    destruct (isValid r0) eqn:Hv; [|discriminate].
    intros [= <-]. exists (r0 :: l), r0. repeat split; [now left | exact Hv]. }
  destruct a; assumption.
Qed.

(** X9.  Whatever the script prints is the text of a result that the decode
    capability returned and marked valid, for the buffer of one of the six
    attempts. *)
Theorem printed_text_is_a_valid_decode (t : string) :
  In t (stdout (fst run)) ->
  exists a buffer results r,
    In a attempts /\
    source sharp readFile a = Normal buffer /\
    readBarcodes buffer (options a) = Normal (Some results) /\
    In r results /\ isValid r = true /\ text r = t.
Proof.
  intros Ht.
  destruct run_ends as [(pre & a & post & t' & H & _ & Ha & _ & O & _)
                       |[(pre & a & post & e & _ & _ & _ & _ & O & _)
                        |(_ & _ & O & _)]];
    rewrite O in Ht; try contradiction.
  destruct Ht as [<-|[]].
  unfold Decode.outcome in Ha.
  destruct (source sharp readFile a) as [b|e] eqn:Eb; [|discriminate].
  destruct (readBarcodes b (options a)) as [rs|e] eqn:Er; [|discriminate].
  destruct (accept a rs) as [t|] eqn:Eacc; [|discriminate].
  injection Ha as <-.
  destruct (accepted_is_valid a rs t Eacc) as (l & r & -> & Hin & Hv & Ht).
  exists a, b, l, r. repeat split; trivial.
  rewrite H. apply in_or_app. right. now left.
Qed.

(** X10.  An attempt of the fixed list is begun exactly when every attempt
    before it has completed without an accepted result; so the original
    file is read only after the five preprocessed attempts have all given
    nothing. *)
Theorem begun_iff_all_before_gave_nothing (pre post : list attempt) (a : attempt) :
  attempts = pre ++ a :: post ->
  (In a (started (fst run)) <-> Forall (fun b => outcome b = NoResult) pre).
Proof.
  intros H. split.
  - intros Hin.
    destruct (first_decisive pre) as [Hall|(p1 & b & p2 & Hp & Hp1 & Hb)]; [exact Hall|].
    exfalso.
    assert (H' : attempts = p1 ++ b :: (p2 ++ a :: post)).
    { rewrite H, Hp, <- app_assoc. reflexivity. }
    destruct (run_reaches Buffer sharp readBarcodes readFile p1 _ b H' Hp1)
      as (E & S1 & _).
    assert (Hs : started (fst run) = p1 ++ [b]).
    { rewrite E. cbn [Decode.cascade].
      destruct (outcome b) as [e| |t]; [|congruence|]; cbn [fst];
        rewrite started_app, S1; cbn; now rewrite app_nil_r. }
    rewrite Hs in Hin.
    apply (later_not_earlier p1 (p2 ++ a :: post) b H' a); [|exact Hin].
    apply in_or_app. right. now left.
  - intros Hpre.
    destruct (run_reaches Buffer sharp readBarcodes readFile pre post a H Hpre)
      as (E & S1 & _).
    assert (Hext : forall todo tr, exists more,
               fst (cascade todo tr) = tr ++ more).
    { induction todo as [|x todo IH]; intros tr; cbn [Decode.cascade].
      - eexists. reflexivity.
      - destruct (outcome x).
        + eexists. cbn [fst]. rewrite <- app_assoc. reflexivity.
        + destruct (IH (tr ++ events_of x)) as [more Hm]. rewrite Hm.
          eexists. rewrite <- app_assoc. reflexivity.
        + eexists. cbn [fst]. rewrite <- app_assoc. reflexivity. }
    assert (Hrun : exists more,
               fst run = (flat_map events_of pre ++ events_of a) ++ more).
    { rewrite E. cbn [Decode.cascade]. destruct (outcome a).
      - eexists. reflexivity.
      - apply Hext.
      - eexists. reflexivity. }
    destruct Hrun as [more ->]. rewrite started_app, S1.
    apply in_or_app. left. apply in_or_app. right. now left.
Qed.


End CascadeMore.

Section RunsMore.

Import Decode.
Local Open Scope list_scope.

Lemma printed_text_is_a_valid_decode_witness :
  exists a results r,
    In a attempts /\
    Scenario.engine_reads_at_90 (recipe a) (options a) = Normal (Some results) /\
    In r results /\ isValid r = true /\ text r = "0100349281589058".
Proof.
  destruct (printed_text_is_a_valid_decode Scenario.Buffer Scenario.sharp
              Scenario.engine_reads_at_90 Scenario.readFile "0100349281589058")
    as (a & b & l & r & Ha & Hb & Hr & Hin & Hv & Ht).
  - vm_compute. left. reflexivity.
  - exists a, l, r. repeat split; trivial.
    assert (E : b = recipe a).
    { destruct a; cbn in Hb; injection Hb as <-; reflexivity. }
    now rewrite <- E.
Defined.

Lemma begun_iff_all_before_gave_nothing_witness :
  In original
    (started (fst (run Scenario.sharp Scenario.engine_reads_nothing Scenario.readFile)))
  /\ ~ In original
       (started (fst (run Scenario.sharp Scenario.engine_reads_at_90
                        Scenario.readFile))).
Proof.
  split.
  - apply (proj2 (begun_iff_all_before_gave_nothing Scenario.Buffer Scenario.sharp
                    Scenario.engine_reads_nothing Scenario.readFile
                    [standard; enhanced; rotated 90; rotated 180; rotated 270] []
                    original eq_refl)).
    repeat (apply Forall_cons; [reflexivity|]). apply Forall_nil.
  - intros H.
    apply (proj1 (begun_iff_all_before_gave_nothing Scenario.Buffer Scenario.sharp
                    Scenario.engine_reads_at_90 Scenario.readFile
                    [standard; enhanced; rotated 90; rotated 180; rotated 270] []
                    original eq_refl)) in H.
    inversion H as [|? ? _ Ha]. inversion Ha as [|? ? _ Hb].
    inversion Hb as [|? ? Hc _]. discriminate Hc.
Defined.


End RunsMore.

(** ** The NDC and the OpenFDA lookup *)

Section LookupFacts.

Import GS1 OpenFDA.
Local Open Scope list_scope.

(** Rewrites the hyphen tests on code units known not to be hyphens. *)
Ltac not_hyphens H :=
  repeat match goal with
         | |- context [Ascii.eqb ?c "-"] =>
             rewrite (proj2 (Ascii.eqb_neq c "-"%char))
               by (apply H; simpl; tauto)
         end.

(** X12.  The NDC of a GTIN has 13 code units, with hyphens as the 6th and
    the 11th; when the GTIN holds no hyphen, taking the hyphens out of the
    NDC gives back the last eleven code units of the GTIN. *)
Theorem ndc_keeps_eleven_digits (gtin ndc : string) :
  convertGTINtoNDC gtin = Normal ndc ->
  String.length ndc = 13 /\
  JS.substring ndc 5 6 = "-"%string /\
  JS.substring ndc 10 11 = "-"%string /\
  ((forall c, In c (list_ascii_of_string gtin) -> c <> "-"%char) ->
   remove_hyphens ndc = JS.substring_from gtin 3).
Proof.
  intros H. pose proof (convertGTINtoNDC_normal gtin ndc H) as L.
  rewrite (convertGTINtoNDC_14 gtin L) in H. injection H as <-.
  do 14 (destruct gtin as [|? gtin]; [discriminate L|]).
  destruct gtin; [|discriminate L].
  repeat split.
  intros Hn. cbn. not_hyphens Hn. reflexivity.
Qed.

Lemma ndc_keeps_eleven_digits_witness :
  remove_hyphens "49281-5890-58" = "49281589058"%string.
Proof.
  destruct (ndc_keeps_eleven_digits "00349281589058" "49281-5890-58" eq_refl)
    as (_ & _ & _ & H).
  apply H. intros c Hc. simpl in Hc.
  repeat (destruct Hc as [<-|Hc]; [discriminate|]). contradiction.
Defined.

(** X13.  For the NDC of a GTIN that holds no hyphen, the three queries are:
    the NDC itself in quotes; the labeler and product groups (digits 4 to 8
    and 9 to 12 of the GTIN) in quotes, without the package group; the
    labeler group followed by a star. *)
Theorem queries_of_a_gtin (gtin ndc : string) :
  convertGTINtoNDC gtin = Normal ndc ->
  (forall c, In c (list_ascii_of_string gtin) -> c <> "-"%char) ->
  searchPatterns ndc
  = [ ("product_ndc:" ++ quote ++ ndc ++ quote)%string;
      ("product_ndc:" ++ quote ++ digits gtin 4 8 ++ "-" ++ digits gtin 9 12
         ++ quote)%string;
      ("product_ndc:" ++ digits gtin 4 8 ++ "*")%string ].
Proof.
  intros H Hn. pose proof (convertGTINtoNDC_normal gtin ndc H) as L.
  rewrite (convertGTINtoNDC_14 gtin L) in H. injection H as <-.
  do 14 (destruct gtin as [|? gtin]; [discriminate L|]).
  destruct gtin; [|discriminate L].
  unfold searchPatterns. cbn [ndc_of_digits digits String.substring Nat.sub Nat.add
                              append remove_hyphens].
  cbn [Ascii.eqb Bool.eqb]. not_hyphens Hn. reflexivity.
Qed.

Lemma queries_of_a_gtin_witness :
  map url_of (searchPatterns "49281-5890-58")
  = [ "https://api.fda.gov/drug/ndc.json?search=product_ndc%3A%2249281-5890-58%22&limit=5"%string;
      "https://api.fda.gov/drug/ndc.json?search=product_ndc%3A%2249281-5890%22&limit=5"%string;
      "https://api.fda.gov/drug/ndc.json?search=product_ndc%3A49281*&limit=5"%string ].
Proof.
  rewrite (queries_of_a_gtin "00349281589058" "49281-5890-58" eq_refl).
  - reflexivity.
  - intros c Hc. simpl in Hc.
    repeat (destruct Hc as [<-|Hc]; [discriminate|]). contradiction.
Defined.

(** *** The loop over the queries *)

Section Loop.

Variable Drug : Type.
Variable fetch : string -> completion (Response Drug).

Lemma requests_app (t1 t2 : list event) :
  requests (t1 ++ t2) = requests t1 ++ requests t2.
Proof.
  induction t1 as [|ev t1 IH]; simpl; [reflexivity|].
  destruct ev; simpl; now rewrite IH.
Qed.

(** A query that finds nothing is passed, whatever the reason: an error of
    [fetch] or of [json], a status that is not [ok], a body without
    results. *)
Lemma query_loop_miss (q : string) (rest : list string) (tr : list event) :
  hit fetch q = None ->
  exists tr',
    query_loop fetch (q :: rest) tr = query_loop fetch rest tr' /\
    requests tr' = requests tr ++ [url_of q].
Proof.
  intros H. unfold hit in H. cbn [query_loop].
  assert (R : forall extra, requests extra = [] ->
              requests ((tr ++ [log_trying q; fetch_call (url_of q)]) ++ extra)
              = requests tr ++ [url_of q]).
  { intros extra He. rewrite !requests_app, He. cbn. now rewrite app_nil_r. }
  destruct (fetch (url_of q)) as [response|e].
  - destruct (ok response).
    + destruct (json response) as [[[|d ds]|]|e]; try discriminate H.
      * eexists. split; [reflexivity|]. rewrite <- (app_nil_r (tr ++ _)). now apply R.
      * eexists. split; [reflexivity|]. rewrite <- (app_nil_r (tr ++ _)). now apply R.
      * eexists. split; [reflexivity|]. now apply R.
    + destruct (status response =? 404)%Z;
        (eexists; split; [reflexivity|]; now apply R).
  - eexists. split; [reflexivity|]. now apply R.
Qed.

Lemma query_loop_misses (pre rest : list string) : forall tr,
  Forall (fun q => hit fetch q = None) pre ->
  exists tr',
    query_loop fetch (pre ++ rest) tr = query_loop fetch rest tr' /\
    requests tr' = requests tr ++ map url_of pre.
Proof.
  induction pre as [|q pre IH]; intros tr H.
  - exists tr. split; [reflexivity|]. cbn. now rewrite app_nil_r.
  - inversion H as [|? ? Hq Hpre]; subst.
    destruct (query_loop_miss q (pre ++ rest) tr Hq) as (tr1 & E1 & R1).
    destruct (IH tr1 Hpre) as (tr2 & E2 & R2).
    exists tr2. split.
    + cbn [app]. now rewrite E1.
    + rewrite R2, R1, <- app_assoc. reflexivity.
Qed.

Lemma query_loop_hit (q : string) (rest : list string) (tr : list event)
                     (d : Drug) (all : list Drug) :
  hit fetch q = Some (d, all) ->
  snd (query_loop fetch (q :: rest) tr) = Found q d all /\
  requests (fst (query_loop fetch (q :: rest) tr)) = requests tr ++ [url_of q].
Proof.
  intros H. unfold hit in H. cbn [query_loop].
  destruct (fetch (url_of q)) as [response|e]; [|discriminate H].
  destruct (ok response); [|discriminate H].
  destruct (json response) as [[[|d0 ds]|]|e]; try discriminate H.
  injection H as <- <-. cbn [fst snd]. split; [reflexivity|].
  rewrite !requests_app. cbn. now rewrite app_nil_r.
Qed.

(** X14.  The first query that finds records decides the lookup: the
    queries before it, which found nothing or failed, are passed over one by
    one, the function returns that query, its first record and all its
    records, and no later query is sent. *)
Theorem first_hit_is_returned (ndc : string) (pre post : list string) (q : string)
                              (d : Drug) (all : list Drug) :
  searchPatterns ndc = pre ++ q :: post ->
  Forall (fun p => hit fetch p = None) pre ->
  hit fetch q = Some (d, all) ->
  snd (queryOpenFDA fetch ndc) = Found q d all /\
  requests (fst (queryOpenFDA fetch ndc)) = map url_of (pre ++ [q]).
Proof.
  intros H Hpre Hq. unfold queryOpenFDA. rewrite H.
  destruct (query_loop_misses pre (q :: post) [] Hpre) as (tr' & E & R).
  rewrite E. destruct (query_loop_hit q post tr' d all Hq) as (E1 & R1).
  split; [exact E1|]. rewrite R1, R, map_app. reflexivity.
Qed.

End Loop.

(** *** The lookup with its outer handler *)

Section OuterHandler.

Variable Drug : Type.
Variable encode : string -> completion string.
Variable fetch : string -> completion (Response Drug).

Local Abbreviation answer_of := (Engine.answer_of encode fetch).
Local Abbreviation loop := (Engine.query_loop encode fetch).
Local Abbreviation sent := (Engine.sent encode).

Lemma Engine_loop_nothing (q : string) (rest : list string) (tr : list event) :
  answer_of q = Engine.Nothing ->
  exists tr',
    loop (q :: rest) tr = loop rest tr' /\
    requests tr' = requests tr ++ sent q /\ length (sent q) = 1.
Proof.
  intros H. unfold Engine.answer_of in H. unfold Engine.sent.
  cbn [Engine.query_loop].
  destruct (encode q) as [v|e]; [|discriminate H].
  assert (R : forall extra, requests extra = [] ->
              requests ((tr ++ [log_trying q; fetch_call (Engine.address v)]) ++ extra)
              = requests tr ++ [Engine.address v]).
  { intros extra He. rewrite !requests_app, He. cbn. now rewrite app_nil_r. }
  destruct (fetch (Engine.address v)) as [response|e].
  - destruct (ok response).
    + destruct (json response) as [[[|d ds]|]|e]; try discriminate H.
      * eexists. split; [reflexivity|]. split; [|reflexivity].
        rewrite <- (app_nil_r (tr ++ _)). now apply R.
      * eexists. split; [reflexivity|]. split; [|reflexivity].
        rewrite <- (app_nil_r (tr ++ _)). now apply R.
      * eexists. split; [reflexivity|]. split; [|reflexivity]. now apply R.
    + destruct (status response =? 404)%Z;
        (eexists; split; [reflexivity|]; split; [|reflexivity]; now apply R).
  - eexists. split; [reflexivity|]. split; [|reflexivity]. now apply R.
Qed.

Lemma Engine_loop_nothings (pre rest : list string) : forall tr,
  Forall (fun q => answer_of q = Engine.Nothing) pre ->
  exists tr',
    loop (pre ++ rest) tr = loop rest tr' /\
    requests tr' = requests tr ++ flat_map sent pre /\
    length (flat_map sent pre) = length pre.
Proof.
  induction pre as [|q pre IH]; intros tr H.
  - exists tr. split; [reflexivity|]. cbn. now rewrite app_nil_r.
  - inversion H as [|? ? Hq Hpre]; subst.
    destruct (Engine_loop_nothing q (pre ++ rest) tr Hq) as (tr1 & E1 & R1 & L1).
    destruct (IH tr1 Hpre) as (tr2 & E2 & R2 & L2).
    exists tr2. split; [|split].
    + cbn [app]. now rewrite E1.
    + cbn [flat_map]. rewrite R2, R1, <- app_assoc. reflexivity.
    + cbn [flat_map length]. rewrite length_app, L1, L2. reflexivity.
Qed.

Lemma Engine_loop_records (q : string) (rest : list string) (tr : list event)
                          (d : Drug) (all : list Drug) :
  answer_of q = Engine.Records d all ->
  snd (loop (q :: rest) tr) = Normal (Found q d all) /\
  requests (fst (loop (q :: rest) tr)) = requests tr ++ sent q /\
  length (sent q) = 1 /\
  exists others, all = d :: others.
Proof.
  intros H. unfold Engine.answer_of in H. unfold Engine.sent.
  cbn [Engine.query_loop].
  destruct (encode q) as [v|e]; [|discriminate H].
  destruct (fetch (Engine.address v)) as [response|e]; [|discriminate H].
  destruct (ok response); [|discriminate H].
  destruct (json response) as [[[|d0 ds]|]|e]; try discriminate H.
  injection H as <- <-. cbn [fst snd]. split; [reflexivity|].
  split; [|split; [reflexivity | now exists ds]].
  rewrite !requests_app. cbn. now rewrite app_nil_r.
Qed.

Lemma Engine_loop_malformed (q : string) (rest : list string) (tr : list event)
                            (e : exn) :
  answer_of q = Engine.Malformed e ->
  loop (q :: rest) tr = (tr, Throw e) /\ sent q = [] /\ encode q = Throw e.
Proof.
  intros H. unfold Engine.answer_of in H. unfold Engine.sent.
  cbn [Engine.query_loop].
  destruct (encode q) as [v|e'].
  - destruct (fetch (Engine.address v)) as [response|e']; [|discriminate H].
    destruct (ok response); [|discriminate H].
    destruct (json response) as [[[|d0 ds]|]|e']; discriminate H.
  - injection H as <-. repeat split.
Qed.

(** The queries up to the first that does not come to nothing. *)
Lemma first_answer (l : list string) :
  Forall (fun p => answer_of p = Engine.Nothing) l \/
  exists pre q post,
    l = pre ++ q :: post /\
    Forall (fun p => answer_of p = Engine.Nothing) pre /\
    answer_of q <> Engine.Nothing.
Proof.
  induction l as [|p l IH]; [left; constructor|].
  destruct (answer_of p) as [e| |d all] eqn:Hp.
  - right. exists [], p, l. repeat split; [constructor | congruence].
  - destruct IH as [IH|(pre & q & post & -> & Hpre & Hq)].
    + left. now constructor.
    + right. exists (p :: pre), q, post. repeat split; [now constructor | exact Hq].
  - right. exists [], p, l. repeat split; [constructor | congruence].
Qed.

(** X15.  The lookup with its outer handler has three outcomes: a query of
    the three with a non-empty array of records and the first of them; the
    message that no drug matched; the message that the lookup failed,
    followed by the message of the error thrown while an address was built.
    The first query that does not come to nothing decides: its records are
    returned, or, when its address cannot be built, the failure is, and no
    request is sent for it nor for a later query.  The message that no drug
    matched is returned exactly when all three queries come to nothing,
    after three requests.  Never more than three requests are sent, and with
    an encoder that accepts the three queries the lookup does not fail. *)
Theorem lookup_outcomes (ndc : string) :
  let patterns := searchPatterns ndc in
  let result := snd (Engine.queryOpenFDA encode fetch ndc) in
  let urls := requests (fst (Engine.queryOpenFDA encode fetch ndc)) in
  let no_match :=
    NotFound "No matching drug information found in OpenFDA database" in
  let failed (e : exn) :=
    NotFound ("Failed to fetch drug information: " ++ message e) in
  (forall pre q post,
     patterns = pre ++ q :: post ->
     Forall (fun p => answer_of p = Engine.Nothing) pre ->
     (forall d all, answer_of q = Engine.Records d all ->
        result = Found q d all /\ urls = flat_map sent (pre ++ [q]) /\
        length urls = length pre + 1) /\
     (forall e, answer_of q = Engine.Malformed e ->
        result = failed e /\ urls = flat_map sent pre /\
        length urls = length pre)) /\
  (Forall (fun p => answer_of p = Engine.Nothing) patterns <-> result = no_match) /\
  (Forall (fun p => answer_of p = Engine.Nothing) patterns ->
   urls = flat_map sent patterns /\ length urls = 3) /\
  ((exists q d others,
      In q patterns /\ answer_of q = Engine.Records d (d :: others) /\
      result = Found q d (d :: others)) \/
   result = no_match \/
   (exists q e, In q patterns /\ encode q = Throw e /\ result = failed e)) /\
  length urls <= 3 /\
  ((forall q, In q patterns -> exists encoded, encode q = Normal encoded) ->
   (exists q d others, result = Found q d (d :: others)) \/ result = no_match).
Proof.
  intros patterns result urls no_match failed.
  assert (Decisive : forall pre q post,
     patterns = pre ++ q :: post ->
     Forall (fun p => answer_of p = Engine.Nothing) pre ->
     (forall d all, answer_of q = Engine.Records d all ->
        result = Found q d all /\ urls = flat_map sent (pre ++ [q]) /\
        length urls = length pre + 1) /\
     (forall e, answer_of q = Engine.Malformed e ->
        result = failed e /\ urls = flat_map sent pre /\
        length urls = length pre)).
  { intros pre q post H Hpre. unfold result, urls, Engine.queryOpenFDA.
    fold patterns. rewrite H.
    destruct (Engine_loop_nothings pre (q :: post) [] Hpre) as (tr' & E & R & L).
    rewrite E. cbn [requests app] in R. split.
    - intros d all Hq.
      destruct (Engine_loop_records q post tr' d all Hq) as (E1 & R1 & L1 & _).
      destruct (loop (q :: post) tr') as [tr1 c1]. cbn [fst snd] in E1, R1.
      subst c1. cbn [fst snd]. split; [reflexivity|].
      rewrite R1, R, flat_map_app. cbn [flat_map]. rewrite app_nil_r.
      split; [reflexivity|]. now rewrite length_app, L, L1.
    - intros e Hq.
      destruct (Engine_loop_malformed q post tr' e Hq) as (E1 & _ & _).
      rewrite E1. cbn [fst snd]. split; [reflexivity|].
      rewrite R. split; [reflexivity | exact L]. }
  assert (None_case : Forall (fun p => answer_of p = Engine.Nothing) patterns ->
            result = no_match /\ urls = flat_map sent patterns /\ length urls = 3).
  { intros Hall. unfold result, urls, Engine.queryOpenFDA. fold patterns.
    destruct (Engine_loop_nothings patterns [] [] Hall) as (tr' & E & R & L).
    rewrite app_nil_r in E. rewrite E. cbn [Engine.query_loop fst snd].
    cbn [requests app] in R. split; [reflexivity|]. split; [exact R|].
    rewrite R, L. reflexivity. }
  assert (Len : length patterns = 3) by reflexivity.
  split; [exact Decisive|].
  destruct (first_answer patterns) as [Hall|(pre & q & post & H & Hpre & Hq)].
  - destruct (None_case Hall) as (E & R & L).
    split; [split; [intros _; exact E | intros _; exact Hall]|].
    split; [intros _; split; [exact R | exact L]|].
    split; [right; left; exact E|]. split; [rewrite L; apply le_n|].
    intros _. right. exact E.
  - assert (Hin : In q patterns)
      by (rewrite H; apply in_or_app; right; now left).
    assert (Hnot : ~ Forall (fun p => answer_of p = Engine.Nothing) patterns).
    { intros Hall. rewrite H in Hall. apply Forall_app in Hall.
      destruct Hall as [_ Hall]. inversion Hall as [|? ? Hq' _]. contradiction. }
    assert (Hlen : length pre + 1 <= 3).
    { rewrite H in Len. rewrite length_app in Len. cbn [length] in Len. lia. }
    destruct (Decisive pre q post H Hpre) as [Hrec Hmal].
    destruct (answer_of q) as [e| |d all] eqn:Ha; [| contradiction |].
    + destruct (Hmal e eq_refl) as (E & R & L).
      destruct (Engine_loop_malformed q post [] e Ha) as (_ & _ & Henc).
      split; [split; [intros Hall; contradiction|]|].
      { intros E'. rewrite E in E'. discriminate E'. }
      split; [intros Hall; contradiction|].
      split; [right; right; exists q, e; repeat split; assumption|].
      split; [lia|].
      intros Hok. destruct (Hok q Hin) as [v Hv]. congruence.
    + destruct (Hrec d all eq_refl) as (E & R & L).
      destruct (Engine_loop_records q post [] d all Ha) as (_ & _ & _ & others & ->).
      split; [split; [intros Hall; contradiction|]|].
      { intros E'. rewrite E in E'. discriminate E'. }
      split; [intros Hall; contradiction|].
      split; [left; exists q, d, others; repeat split; assumption|].
      split; [lia|].
      intros _. left. now exists q, d, others.
Qed.

(** With the encoder of the strings of code units below 256 the outer
    handler is not entered, and the lookup is the loop alone. *)
Lemma Engine_query_loop_units (patterns : list string) : forall tr,
  Engine.query_loop Engine.encode_units fetch patterns tr
  = (fst (query_loop fetch patterns tr), Normal (snd (query_loop fetch patterns tr))).
Proof.
  induction patterns as [|q rest IH]; intros tr; [reflexivity|].
  cbn [Engine.query_loop query_loop Engine.encode_units].
  change (Engine.address (encodeURIComponent q)) with (url_of q).
  destruct (fetch (url_of q)) as [response|e]; [|apply IH].
  destruct (ok response).
  - destruct (json response) as [[[|d ds]|]|e]; try apply IH. reflexivity.
  - destruct (status response =? 404)%Z; apply IH.
Qed.

Lemma Engine_queryOpenFDA_units (ndc : string) :
  Engine.queryOpenFDA Engine.encode_units fetch ndc = queryOpenFDA fetch ndc.
Proof.
  unfold Engine.queryOpenFDA, queryOpenFDA. rewrite Engine_query_loop_units.
  now destruct (query_loop fetch (searchPatterns ndc) []).
Qed.

End OuterHandler.

(** *** The address of a request *)





Lemma first_hit_is_returned_witness :
  snd (queryOpenFDA Database.fetch_finds_product "49281-5890-58")
  = Found ("product_ndc:" ++ quote ++ "49281-5890" ++ quote)%string
      "Fluzone"%string ["Fluzone"%string; "Fluzone High-Dose"%string].
Proof.
  apply (first_hit_is_returned Database.Drug Database.fetch_finds_product
           "49281-5890-58"
           [("product_ndc:" ++ quote ++ "49281-5890-58" ++ quote)%string]
           ["product_ndc:49281*"%string]
           ("product_ndc:" ++ quote ++ "49281-5890" ++ quote)%string).
  - reflexivity.
  - apply Forall_cons; [reflexivity | apply Forall_nil].
  - reflexivity.
Defined.

Lemma lookup_outcomes_witness :
  snd (Engine.queryOpenFDA (Database.encode_but "product_ndc:49281*")
         Database.fetch_server_error "49281-5890-58")
  = NotFound "Failed to fetch drug information: URI malformed" /\
  requests (fst (Engine.queryOpenFDA (Database.encode_but "product_ndc:49281*")
                   Database.fetch_server_error "49281-5890-58"))
  = [ "https://api.fda.gov/drug/ndc.json?search=product_ndc%3A%2249281-5890-58%22&limit=5"%string;
      "https://api.fda.gov/drug/ndc.json?search=product_ndc%3A%2249281-5890%22&limit=5"%string ] /\
  snd (Engine.queryOpenFDA Engine.encode_units Database.fetch_server_error
         "49281-5890-58")
  = NotFound "No matching drug information found in OpenFDA database".
Proof.
  destruct (lookup_outcomes Database.Drug
              (Database.encode_but "product_ndc:49281*")
              Database.fetch_server_error "49281-5890-58")
    as (H1 & _).
  destruct (H1 [("product_ndc:" ++ quote ++ "49281-5890-58" ++ quote)%string;
                ("product_ndc:" ++ quote ++ "49281-5890" ++ quote)%string]
               "product_ndc:49281*"%string [] eq_refl) as [_ Hfail].
  { repeat (apply Forall_cons; [reflexivity|]). apply Forall_nil. }
  destruct (Hfail (Error "URI malformed") eq_refl) as (E1 & E2 & _).
  destruct (lookup_outcomes Database.Drug Engine.encode_units
              Database.fetch_server_error "49281-5890-58")
    as (_ & H2 & _).
  split; [exact E1|]. split; [exact E2|].
  apply H2. repeat (apply Forall_cons; [reflexivity|]). apply Forall_nil.
Defined.

End LookupFacts.
